(** * Finite-size corrections for charged point defects (pydefect)

    A shallow embedding of [pydefect/core/correction.py]: the lattice-vector
    generator, the Ewald parameter store and its optimizer, the model
    potential of the extended FNV scheme and the potential alignment built
    on it, together with the [Correction] objects that carry the result.

    Numbers are IEEE binary64 values, as Python's [float] and numpy's
    [float64] are; they are modelled by Rocq's primitive floats, whose
    operations are specified by [FloatAxioms].  Python exceptions are an
    error monad.  What the module takes from numpy, scipy and pymatgen
    without a counterpart among the primitive float operations (determinant,
    inverse, [pow], [erfc], ...) is a record of functions, [NumLib], that
    every statement below quantifies over. *)

From stdpp Require Import base tactics option list list_numbers sorting strings
  gmap.
From Stdlib Require Import ZArith Floats Lia.

Set Warnings "-inexact-float".
#[local] Open Scope Z_scope.

(** ** Exceptions *)

(** A Python exception is identified by the name of its class. *)
Definition exn := string.

Inductive result (A : Type) : Type :=
  | Ok (a : A)
  | Raise (e : exn).
Arguments Ok {A} a.
Arguments Raise {A} e.

#[global] Instance result_ret : MRet result := fun _ a => Ok a.
#[global] Instance result_bind : MBind result := fun _ _ f m =>
  match m with
  | Ok a => f a
  | Raise e => Raise e
  end.

Definition ZeroDivisionError : exn := "ZeroDivisionError".
Definition OverflowError : exn := "OverflowError".
Definition ValueError : exn := "ValueError".
Definition IndexError : exn := "IndexError".
Definition TypeError : exn := "TypeError".
Definition KeyError : exn := "KeyError".
Definition AttributeError : exn := "AttributeError".
Definition LinAlgError : exn := "LinAlgError".

(** ** Numbers *)

(** A float is a Python [float] or a numpy [float64]: the same binary64
    value, but division by zero raises for the first and yields an infinity
    or a NaN for the second.  An operation with a numpy operand is a numpy
    operation and gives a numpy scalar. *)
Inductive number : Type :=
  | PyFloat (x : float)
  | NpFloat (x : float).

Definition value (a : number) : float :=
  match a with
  | PyFloat x => x
  | NpFloat x => x
  end.

(** [a / b] *)
Definition num_div (a b : number) : result number :=
  match a, b with
  | PyFloat x, PyFloat y =>
      if is_zero y then Raise ZeroDivisionError else Ok (PyFloat (x / y)%float)
  | _, _ => Ok (NpFloat (value a / value b)%float)
  end.

(** [a * b] *)
Definition num_mul (a b : number) : number :=
  match a, b with
  | PyFloat x, PyFloat y => PyFloat (x * y)%float
  | _, _ => NpFloat (value a * value b)%float
  end.

(** [float(n)] for an [int]: the nearest binary64 value. *)
Definition float_of_int (n : Z) : float :=
  SF2Prim (binary_normalize prec emax n 0 false).

(** [int(x)]: truncation toward zero; an infinity or a NaN raises. *)
Definition int_of_float (x : float) : result Z :=
  match Prim2SF x with
  | S754_zero _ => Ok 0
  | S754_finite s m e =>
      let a := Z.shiftl (Z.pos m) e in Ok (if s then - a else a)
  | S754_infinity _ => Raise OverflowError
  | S754_nan => Raise ValueError
  end.

(** [n / m] for two [int]s (true division). *)
Definition int_truediv (n m : Z) : result float :=
  if m =? 0 then Raise ZeroDivisionError
  else Ok (float_of_int n / float_of_int m)%float.

(** ** Vectors and matrices *)

Record vec : Type := V3 { vx : float; vy : float; vz : float }.
Record matrix : Type := M3 { row0 : vec; row1 : vec; row2 : vec }.

Definition index : Type := (Z * Z * Z)%type.

Definition zeros3 : vec := V3 0 0 0.

Definition vadd (a b : vec) : vec :=
  V3 (vx a + vx b) (vy a + vy b) (vz a + vz b).
Definition vsub (a b : vec) : vec :=
  V3 (vx a - vx b) (vy a - vy b) (vz a - vz b).

(** [np.dot(a, b)] for two vectors, summed from left to right. *)
Definition dot (a b : vec) : float :=
  (vx a * vx b + vy a * vy b + vz a * vz b)%float.

(** [np.cross(a, b)] *)
Definition cross (a b : vec) : vec :=
  V3 (vy a * vz b - vz a * vy b)
     (vz a * vx b - vx a * vz b)
     (vx a * vy b - vy a * vx b).

(** [np.linalg.norm(v)] *)
Definition norm (v : vec) : float := PrimFloat.sqrt (dot v v).

Definition transpose (m : matrix) : matrix :=
  M3 (V3 (vx (row0 m)) (vx (row1 m)) (vx (row2 m)))
     (V3 (vy (row0 m)) (vy (row1 m)) (vy (row2 m)))
     (V3 (vz (row0 m)) (vz (row1 m)) (vz (row2 m))).

(** [np.dot(m, v)]: a matrix times a column vector. *)
Definition mat_vec (m : matrix) (v : vec) : vec :=
  V3 (dot (row0 m) v) (dot (row1 m) v) (dot (row2 m) v).

(** [np.dot(v, m)]: a row vector times a matrix. *)
Definition vec_mat (v : vec) (m : matrix) : vec := mat_vec (transpose m) v.

(** [np.array(index)] used as a float operand. *)
Definition array_of_index (n : index) : vec :=
  V3 (float_of_int n.1.1) (float_of_int n.1.2) (float_of_int n.2).

(** ** The lattice-vector generator *)

(** [range(a, b)] *)
Definition range (a b : Z) : list Z := seqZ a (b - a).

(** [itertools.product(xs, ys, zs)]: the last component runs fastest. *)
Definition product (xs ys zs : list Z) : list index :=
  x ← xs; y ← ys; z ← zs; [(x, y, z)].

Definition index_is_origin (n : index) : bool :=
  (n.1.1 =? 0) && (n.1.2 =? 0) && (n.2 =? 0).

(** The search range along one axis, [int(max_length / norm(a)) + 1]. *)
Definition axis_max_int (max_length : number) (a : vec) : result Z :=
  k ← int_of_float (value max_length / norm a)%float; Ok (k + 1).

Definition max_int (lattice_vectors : matrix) (max_length : number)
  : result index :=
  m0 ← axis_max_int max_length (row0 lattice_vectors);
  m1 ← axis_max_int max_length (row1 lattice_vectors);
  m2 ← axis_max_int max_length (row2 lattice_vectors);
  Ok (m0, m1, m2).

Definition search_box (m : index) : list index :=
  product (range (- m.1.1) (m.1.1 + 1))
          (range (- m.1.2) (m.1.2 + 1))
          (range (- m.2) (m.2 + 1)).

(** [np.dot(lattice_vectors.transpose(), np.array(index))] *)
Definition cart_vector (lattice_vectors : matrix) (n : index) : vec :=
  mat_vec (transpose lattice_vectors) (array_of_index n).

(** The test an index passes to be yielded. *)
Definition yielded (lattice_vectors : matrix) (max_length : number)
    (include_self : bool) (n : index) : bool :=
  negb (negb include_self && index_is_origin n)
  && (norm (cart_vector lattice_vectors n) <? value max_length)%float.

(** [Ewald._generate_neighbor_lattices], drained: the list of the vectors it
    yields, in order; an exception of the first step is the result. *)
Definition _generate_neighbor_lattices (lattice_vectors : matrix)
    (max_length : number) (include_self : bool) (shift : vec)
  : result (list vec) :=
  m ← max_int lattice_vectors max_length;
  Ok (n ← search_box m;
      if negb include_self && index_is_origin n then []
      else
        let cart := cart_vector lattice_vectors n in
        if (norm cart <? value max_length)%float then [vadd cart shift]
        else []).

(** The docstring's assumption on the basis: the angle between any two axes
    lies between 60 and 120 degrees, that is [|cos| <= 1/2]. *)
Definition angle_in_60_120 (a b : vec) : bool :=
  (4 * (dot a b * dot a b) <=? dot a a * dot b b)%float.

Definition angles_in_60_120 (lattice_vectors : matrix) : bool :=
  angle_in_60_120 (row0 lattice_vectors) (row1 lattice_vectors)
  && angle_in_60_120 (row1 lattice_vectors) (row2 lattice_vectors)
  && angle_in_60_120 (row2 lattice_vectors) (row0 lattice_vectors).

(** Membership of an index in the search box of half-widths [m]. *)
Definition in_box (m n : index) : Prop :=
  (- m.1.1 <= n.1.1 <= m.1.1) /\ (- m.1.2 <= n.1.2 <= m.1.2)
  /\ (- m.2 <= n.2 <= m.2).

(** The contract of the generator as the specification words it: the
    vectors [basis n + shift] of norm below the cutoff, the one of the
    origin only with [include_self], each once. *)
Definition generator_contract (lattice_vectors : matrix) (max_norm : float)
    (include_self : bool) (shift : vec) (l : list vec) : Prop :=
  NoDup l /\
  forall v, v ∈ l <->
    exists n : index,
      v = vadd (cart_vector lattice_vectors n) shift
      /\ (norm v <? max_norm)%float = true
      /\ (index_is_origin n = true -> include_self = true).

(** Equality of floats is decidable (Leibniz equality: NaN equals itself,
    the two zeros differ). *)
#[global] Instance float_eq_dec : EqDecision float.
Proof.
  intros x y. destruct (PrimFloat.Leibniz.eqb x y) eqn:E.
  - left. apply FloatAxioms.Leibniz.eqb_spec, E.
  - right. intros H. apply FloatAxioms.Leibniz.eqb_spec in H. congruence.
Defined.

#[global] Instance vec_eq_dec : EqDecision vec.
Proof. solve_decision. Defined.

(** ** The numeric libraries *)

(** The functions and constants of numpy, scipy, pymatgen and the C library
    that the module calls and that are no primitive float operation.  They
    are total; what Python raises around them is modelled below. *)
Record NumLib : Type := {
  (** [np.linalg.det] *)
  linalg_det : matrix -> float;
  (** [np.linalg.inv]: [None] for a matrix it finds singular *)
  linalg_inv : matrix -> option matrix;
  (** [np.exp], [np.cos], [np.pi] *)
  np_exp : float -> float;
  np_cos : float -> float;
  np_pi : float;
  (** the C function [pow], behind [math.pow], [**] and [np.power] *)
  pow : float -> float -> float;
  (** [scipy.special.erfc], [scipy.stats.mstats.gmean] *)
  special_erfc : float -> float;
  gmean : list float -> float;
  (** [scipy.constants.elementary_charge], [scipy.constants.epsilon_0] *)
  elementary_charge : float;
  epsilon_0 : float;
  (** [Lattice(m).reciprocal_lattice.matrix] and [Lattice(m).volume] *)
  reciprocal_lattice : matrix -> matrix;
  volume : matrix -> float;
}.

(** [math.sqrt]: a negative argument raises. *)
Definition math_sqrt (x : float) : result float :=
  if (x <? 0)%float then Raise ValueError else Ok (PrimFloat.sqrt x).

(** [x ** y] for a Python float [x], with [x >= 0] or [y] an integer (the
    uses here): an infinite result of a finite [x] raises. *)
Definition float_pow (lib : NumLib) (x y : float) : result float :=
  let r := pow lib x y in
  if is_infinity r && negb (is_infinity x) then Raise OverflowError else Ok r.

(** [math.pow(x, y)] for an exponent that is no integer: a negative [x]
    raises, and so does an overflow. *)
Definition math_pow (lib : NumLib) (x y : float) : result float :=
  if (x <? 0)%float then Raise ValueError else float_pow lib x y.

(** [a ** y] *)
Definition num_pow (lib : NumLib) (a : number) (y : float) : result number :=
  match a with
  | PyFloat x => r ← float_pow lib x y; Ok (PyFloat r)
  | NpFloat x => Ok (NpFloat (pow lib x y))
  end.

(** [np.linalg.inv(m)] *)
Definition np_linalg_inv (lib : NumLib) (m : matrix) : result matrix :=
  match linalg_inv lib m with
  | Some i => Ok i
  | None => Raise LinAlgError
  end.

(** ** The Ewald parameter store *)

(** The splitting parameter is a Python float when given by the caller and
    a numpy scalar when the optimizer derived its first value; the accuracy
    product and the optimizer's [convergence] are Python floats. *)
Record Ewald : Type := {
  lattice_matrix : matrix;
  reciprocal_matrix : matrix;
  dielectric_tensor : matrix;
  ewald_param : number;
  prod_cutoff_fwhm : float;
  num_real_lattice : Z;
  num_reciprocal_lattice : Z;
}.

(** [len(list(g))] as a Python [int]. *)
Definition count {A} (l : list A) : Z := Z.of_nat (length l).

(** The cutoff radii, from the attributes they read. *)
Definition r_max (P : float) (sigma : number) : result number :=
  num_div (PyFloat P) sigma.
Definition g_max (P : float) (sigma : number) : number :=
  num_mul (num_mul (PyFloat 2) sigma) (PyFloat P).

Definition max_r_vector_norm (self : Ewald) : result number :=
  r_max (prod_cutoff_fwhm self) (ewald_param self).
Definition max_g_vector_norm (self : Ewald) : number :=
  g_max (prod_cutoff_fwhm self) (ewald_param self).

(** The body of [Ewald.generate_neighbor_lattices] over the attributes it
    reads: the two bases, the splitting parameter and the accuracy product
    (the counts are not read, and [__init__] calls the method before it
    assigns them). *)
Definition neighbor_lattices (lattice reciprocal : matrix) (sigma : number)
    (P : float) (include_self : bool) (shift : vec) (is_reciprocal : bool)
  : result (list vec) :=
  if negb is_reciprocal then
    max_norm ← r_max P sigma;
    _generate_neighbor_lattices lattice max_norm include_self shift
  else
    _generate_neighbor_lattices reciprocal (g_max P sigma) include_self shift.

Definition generate_neighbor_lattices (self : Ewald) (include_self : bool)
    (shift : vec) (is_reciprocal : bool) : result (list vec) :=
  neighbor_lattices (lattice_matrix self) (reciprocal_matrix self)
    (ewald_param self) (prod_cutoff_fwhm self) include_self shift is_reciprocal.

(** [Ewald.__init__] *)
Definition Ewald_init (lib : NumLib) (lattice_matrix dielectric_tensor : matrix)
    (ewald_param : number) (prod_cutoff_fwhm : float)
    (num_real_lattice num_reciprocal_lattice : option Z) : result Ewald :=
  let reciprocal := reciprocal_lattice lib lattice_matrix in
  num_real ←
    match num_real_lattice with
    | Some n => Ok n
    | None =>
        l ← neighbor_lattices lattice_matrix reciprocal ewald_param
              prod_cutoff_fwhm true zeros3 false;
        Ok (count l)
    end;
  num_reciprocal ←
    match num_reciprocal_lattice with
    | Some n => Ok n
    | None =>
        l ← neighbor_lattices lattice_matrix reciprocal ewald_param
              prod_cutoff_fwhm false zeros3 false;
        Ok (count l)
    end;
  Ok {| lattice_matrix := lattice_matrix;
        reciprocal_matrix := reciprocal;
        dielectric_tensor := dielectric_tensor;
        ewald_param := ewald_param;
        prod_cutoff_fwhm := prod_cutoff_fwhm;
        num_real_lattice := num_real;
        num_reciprocal_lattice := num_reciprocal |}.

(** ** The parameter optimizer *)

(** What one turn of the [while True] loop of [Ewald.from_optimization]
    ends in: the [return], or the next value of [ewald_param]. *)
Inductive turn : Type :=
  | Return (e : Ewald)
  | Continue (ewald_param : number).

(** [1 / convergence < d < convergence] *)
Definition in_band (convergence d : float) : result bool :=
  lo ← num_div (PyFloat 1) (PyFloat convergence);
  Ok ((value lo <? d)%float && (d <? convergence)%float).

Section optimizer.
Context (lib : NumLib).
Context (real_lattice reciprocal dielectric_tensor : matrix).
Context (cube_root_vol root_det_dielectric convergence prod_cutoff_fwhm : float).

(** The loop body. *)
Definition optimization_turn (ewald_param : number) : result turn :=
  q ← num_div ewald_param (PyFloat cube_root_vol);
  let ewald := num_mul q (PyFloat root_det_dielectric) in
  max_r_vector_norm ← num_div (PyFloat prod_cutoff_fwhm) ewald;
  rs ← _generate_neighbor_lattices real_lattice max_r_vector_norm true zeros3;
  let num_real_lattice := count rs in
  let max_g_vector_norm :=
    num_mul (num_mul (PyFloat 2) ewald) (PyFloat prod_cutoff_fwhm) in
  gs ← _generate_neighbor_lattices reciprocal max_g_vector_norm false zeros3;
  let num_reciprocal_lattice := count gs in
  diff_real_reciprocal ← int_truediv num_real_lattice num_reciprocal_lattice;
  b ← in_band convergence diff_real_reciprocal;
  if (b : bool) then
    e ← Ewald_init lib real_lattice dielectric_tensor ewald prod_cutoff_fwhm
          (Some num_real_lattice) (Some num_reciprocal_lattice);
    Ok (Return e)
  else
    p ← float_pow lib diff_real_reciprocal 0.17;
    Ok (Continue (num_mul ewald_param (PyFloat p))).

(** The loop, run for at most [fuel] turns: [None] when it is still
    running after them. *)
Fixpoint optimization_loop (fuel : nat) (ewald_param : number)
  : option (result Ewald) :=
  match fuel with
  | O => None
  | S fuel' =>
      match optimization_turn ewald_param with
      | Raise e => Some (Raise e)
      | Ok (Return e) => Some (Ok e)
      | Ok (Continue ewald_param') => optimization_loop fuel' ewald_param'
      end
  end.

End optimizer.

(** The statements before the loop: the constants of the loop and the
    first [ewald_param]. *)
Definition optimization_start (lib : NumLib) (structure dielectric_tensor : matrix)
    (initial_value : option float) : result (float * float * number) :=
  root_det_dielectric ← math_sqrt (linalg_det lib dielectric_tensor);
  let real_lattice := structure in
  let reciprocal := reciprocal_lattice lib structure in
  cube_root_vol ← math_pow lib (volume lib structure) (1 / 3)%float;
  match initial_value with
  | Some x => Ok (cube_root_vol, root_det_dielectric, PyFloat x)
  | None =>
      let l_r := gmean lib [norm (row0 real_lattice); norm (row1 real_lattice);
                            norm (row2 real_lattice)] in
      let l_g := gmean lib [norm (row0 reciprocal); norm (row1 reciprocal);
                            norm (row2 reciprocal)] in
      Ok (cube_root_vol, root_det_dielectric,
          NpFloat (PrimFloat.sqrt (l_g / l_r / 2) * cube_root_vol
                   / root_det_dielectric)%float)
  end.

(** [Ewald.from_optimization], the loop run for at most [fuel] turns.  The
    structure is given by its lattice matrix, from which pymatgen derives
    the reciprocal matrix and the volume. *)
Definition from_optimization (lib : NumLib) (fuel : nat)
    (structure dielectric_tensor : matrix) (initial_value : option float)
    (convergence prod_cutoff_fwhm : float) : option (result Ewald) :=
  match optimization_start lib structure dielectric_tensor initial_value with
  | Raise e => Some (Raise e)
  | Ok (cube_root_vol, root_det_dielectric, ewald_param) =>
      optimization_loop lib structure (reciprocal_lattice lib structure)
        dielectric_tensor cube_root_vol root_det_dielectric convergence
        prod_cutoff_fwhm fuel ewald_param
  end.

(** ** The interaction sphere *)

(** [(a_i x a_j) . a_k / |a_i x a_j|] for one axis [a_k]. *)
Definition plane_distance (a_i a_j a_k : vec) : float :=
  (abs (dot (cross a_i a_j) a_k) / norm (cross a_i a_j))%float.

(** [calc_distance_two_planes]: entry [i] pairs [lattice_vectors[i - 2]] and
    [lattice_vectors[i - 1]] with [lattice_vectors[i]]. *)
Definition calc_distance_two_planes (lattice_vectors : matrix) : list float :=
  [ plane_distance (row1 lattice_vectors) (row2 lattice_vectors)
      (row0 lattice_vectors);
    plane_distance (row2 lattice_vectors) (row0 lattice_vectors)
      (row1 lattice_vectors);
    plane_distance (row0 lattice_vectors) (row1 lattice_vectors)
      (row2 lattice_vectors) ].

(** Python's [max] and [min] over a non-empty sequence: the first element
    is kept until a later one compares greater (smaller). *)
Definition py_max (x : float) (xs : list float) : float :=
  fold_left (fun m y => if (m <? y)%float then y else m) xs x.
Definition py_min (x : float) (xs : list float) : float :=
  fold_left (fun m y => if (y <? m)%float then y else m) xs x.

(** [calc_max_sphere_radius] *)
Definition calc_max_sphere_radius (lattice_vectors : matrix) : float :=
  match calc_distance_two_planes lattice_vectors with
  | d :: ds => (py_max d ds / 2)%float
  | [] => nan
  end.

(** Half the shortest inter-plane distance, the radius of the largest
    sphere that fits inside the cell (the specification's threshold). *)
Definition half_shortest_plane_distance (lattice_vectors : matrix) : float :=
  match calc_distance_two_planes lattice_vectors with
  | d :: ds => (py_min d ds / 2)%float
  | [] => nan
  end.

(** ** Correction objects *)

Inductive CorrectionMethod : Type := extended_fnv.

(** [CorrectionMethod.value], and [str(member)], which the enumeration
    does not redefine (its method is named [str], not [__str__]). *)
Definition CorrectionMethod_value (m : CorrectionMethod) : string :=
  match m with extended_fnv => "Extended FNV" end.
Definition CorrectionMethod_str (m : CorrectionMethod) : string :=
  match m with extended_fnv => "CorrectionMethod.extended_fnv" end.

(** [CorrectionMethod(s)]: the member of that value. *)
Definition CorrectionMethod_of_value (s : string) : result CorrectionMethod :=
  if decide (s = CorrectionMethod_value extended_fnv) then Ok extended_fnv
  else Raise ValueError.

(** The Python values a [Correction] and its dictionary hold.  [VRepr v]
    is the string [str(v)] of a number or of an [Ewald] object, which is
    not spelled out. *)
Inductive pyval : Type :=
  | VNone
  | VFloat (x : float)
  | VInt (n : Z)
  | VStr (s : string)
  | VMethod (m : CorrectionMethod)
  | VEwald (e : Ewald)
  | VRepr (v : pyval).

(** [str(v)] *)
Definition py_str (v : pyval) : pyval :=
  match v with
  | VStr s => VStr s
  | VRepr v => VRepr v
  | VNone => VStr "None"
  | VMethod m => VStr (CorrectionMethod_str m)
  | v => VRepr v
  end.

(** An instance is its attribute dictionary; a [dict] with string keys is
    a map too. *)
Abbreviation object := (gmap string pyval).
Abbreviation dict := (gmap string pyval).

(** [self.name] for an instance attribute. *)
Definition getattr (self : object) (name : string) : result pyval :=
  match self !! name with
  | Some v => Ok v
  | None => Raise AttributeError
  end.

(** [d[key]] *)
Definition getitem (d : dict) (key : string) : result pyval :=
  match d !! key with
  | Some v => Ok v
  | None => Raise KeyError
  end.

(** [Correction.__init__] *)
Definition Correction_init (method ewald diff_ave_pot alignment
    manually_set_energy : pyval) : object :=
  <["_manually_set_energy" := manually_set_energy]>
  (<["_alignment" := alignment]>
  (<["_diff_ave_pot" := diff_ave_pot]>
  (<["_ewald" := ewald]>
  (<["_method" := method]> ∅)))).

Definition corrected_energy (self : object) : result pyval :=
  getattr self "_corrected_energy".
Definition manually_set_energy (self : object) : result pyval :=
  getattr self "_manually_set_energy".
Definition set_manually_set_energy (self : object) (value : pyval) : object :=
  <["_manually_set_energy" := value]> self.

(** The class body binds [as_dict] and [from_dict] twice.  The first pair
    (lines 297 and 311 of the source): *)
Definition as_dict_first (self : object) : result dict :=
  method ← getattr self "_method";
  ewald ← getattr self "_ewald";
  diff_ave_pot ← getattr self "_diff_ave_pot";
  alignment ← getattr self "_alignment";
  manually_set_energy ← getattr self "_manually_set_energy";
  Ok (<["manually_set_energy" := manually_set_energy]>
     (<["alignment" := alignment]>
     (<["diff_ave_pot" := diff_ave_pot]>
     (<["ewald" := ewald]>
     (<["method" := py_str method]> ∅))))).

Definition from_dict_first (d : dict) : result object :=
  m ← getitem d "method";
  method ← match m with
           | VStr s => CorrectionMethod_of_value s
           | VMethod m => Ok m
           | _ => Raise ValueError
           end;
  ewald ← getitem d "ewald";
  diff_ave_pot ← getitem d "diff_ave_pot";
  alignment ← getitem d "alignment";
  manually_set_energy ← getitem d "manually_set_energy";
  Ok (Correction_init (VMethod method) ewald diff_ave_pot alignment
        manually_set_energy).

(** The second pair (lines 368 and 374), which replaces the first in the
    class: [as_dict] returns an empty dictionary, and [from_dict] calls the
    constructor with the single argument [d["distance_list"]], three
    required arguments short. *)
Definition as_dict (self : object) : result dict := Ok ∅.

Definition from_dict (d : dict) : result object :=
  _ ← getitem d "distance_list";
  Raise TypeError.

(** ** The model potential and the alignment *)

(** What the function receives from its collaborators. *)
Record DefectCalc : Type := {
  (** [unitcell_dft.total_dielectric_tensor] *)
  total_dielectric_tensor : matrix;
  (** [perfect_dft.final_structure.lattice.matrix] *)
  perfect_lattice : matrix;
  (** [defect_dft.relative_potential(perfect_dft, defect_entry)] *)
  diff_ep : list (option float);
  (** [defect_dft.final_structure.frac_coords] *)
  frac_coords : list vec;
  (** [defect_entry.atom_mapping_to_perfect], [defect_entry.charge] *)
  atom_mapping_to_perfect : list (option nat);
  charge : Z;
  (** [defect_center(defect_entry, defect_dft.final_structure)] *)
  defect_coords : vec;
  (** [distance_list(defect_dft.final_structure, defect_coords)] *)
  distances_from_defect : list float;
}.

(** [[frac_coords[i] for i, j in enumerate(mapping) if j is not None]] *)
Fixpoint positions_without_defect (frac_coords : list vec)
    (mapping : list (option nat)) (i : nat) : result (list vec) :=
  match mapping with
  | [] => Ok []
  | None :: mapping' => positions_without_defect frac_coords mapping' (S i)
  | Some _ :: mapping' =>
      match frac_coords !! i with
      | None => Raise IndexError
      | Some r =>
          rs ← positions_without_defect frac_coords mapping' (S i);
          Ok (r :: rs)
      end
  end.

Section model_potential.
Context (lib : NumLib).

(** The real-space loop over the vectors [vs] the generator yields. *)
Definition real_summation (sigma : number) (epsilon_inv : matrix)
    (vs : list vec) : float :=
  fold_left
    (fun summation v =>
       if (norm v <? 1e-8)%float then summation
       else
         let root_r_inv_epsilon_r :=
           PrimFloat.sqrt (dot (vec_mat v epsilon_inv) v) in
         (summation
          + special_erfc lib (value sigma * root_r_inv_epsilon_r)
            / root_r_inv_epsilon_r)%float)
    vs 0%float.

Definition real_part (ewald : Ewald) (shift : vec) : result float :=
  let root_det_epsilon :=
    PrimFloat.sqrt (linalg_det lib (dielectric_tensor ewald)) in
  epsilon_inv ← np_linalg_inv lib (dielectric_tensor ewald);
  vs ← generate_neighbor_lattices ewald true shift false;
  Ok (real_summation (ewald_param ewald) epsilon_inv vs
      / (4 * np_pi lib * root_det_epsilon))%float.

(** The reciprocal-space loop. *)
Fixpoint reciprocal_summation (sigma : number) (epsilon : matrix) (r : vec)
    (gs : list vec) (summation : float) : result float :=
  match gs with
  | [] => Ok summation
  | g :: gs' =>
      let g_epsilon_g := dot (vec_mat g epsilon) g in
      s2 ← num_pow lib sigma 2;
      reciprocal_summation sigma epsilon r gs'
        (summation
         + np_exp lib (- g_epsilon_g / 4 / value s2) / g_epsilon_g
           * np_cos lib (dot g r))%float
  end.

Definition reciprocal_part (ewald : Ewald) (epsilon : matrix) (vol : float)
    (r : vec) : result float :=
  gs ← generate_neighbor_lattices ewald false zeros3 true;
  summation ← reciprocal_summation (ewald_param ewald) epsilon r gs 0%float;
  Ok (summation / vol)%float.

(** The loop over the atoms: [model_pot[i] = ...]. *)
Fixpoint atoms_loop (ewald : Ewald) (epsilon : matrix) (vol diff_pot coeff : float)
    (defect_coords : vec) (i : nat) (positions : list vec)
    (model_pot : list (option float)) : result (list (option float)) :=
  match positions with
  | [] => Ok model_pot
  | r :: positions' =>
      real ← real_part ewald (vsub r defect_coords);
      reciprocal ← reciprocal_part ewald epsilon vol r;
      if decide (i < length model_pot)%nat then
        atoms_loop ewald epsilon vol diff_pot coeff defect_coords (S i) positions'
          (<[i := Some ((real + reciprocal + diff_pot) * coeff)%float]> model_pot)
      else Raise IndexError
  end.

(** The first half of [compute_alignment_by_extended_fnv], down to the
    lattice energy (the three values its commented-out [return] names). *)
Record ModelPotential : Type := {
  model_pot : list (option float);
  model_pot_defect_site : float;
  lattice_energy : float;
}.

Definition model_potential (d : DefectCalc) (ewald : Ewald)
  : result ModelPotential :=
  let epsilon := total_dielectric_tensor d in
  positions ←
    positions_without_defect (frac_coords d) (atom_mapping_to_perfect d) 0;
  let q := float_of_int (charge d) in
  let vol := volume lib (perfect_lattice d) in
  c ← num_div (PyFloat (q * elementary_charge lib * 1e10)%float)
              (PyFloat (epsilon_0 lib));
  let coeff := value c in
  vs ← generate_neighbor_lattices ewald true zeros3 false;
  let model_pot0 := replicate (length vs) None in
  s2 ← num_pow lib (ewald_param ewald) 2;
  let diff_pot := (-0.25 / vol / value s2)%float in
  model_pot ← atoms_loop ewald epsilon vol diff_pot coeff (defect_coords d)
                 0 positions model_pot0;
  real ← real_part ewald zeros3;
  reciprocal ← reciprocal_part ewald epsilon vol zeros3;
  let det_epsilon := linalg_det lib (dielectric_tensor ewald) in
  let self_pot :=
    (value (ewald_param ewald)
     / (2 * np_pi lib * PrimFloat.sqrt (np_pi lib * det_epsilon)))%float in
  let site := ((real + reciprocal + diff_pot + self_pot) * coeff)%float in
  Ok {| model_pot := model_pot;
        model_pot_defect_site := site;
        lattice_energy := (site * q / 2)%float |}.

End model_potential.

(** [zip(ds, as_, ms)] followed by the test [d > distance_threshold] and
    [pot_diff.append(a - m)]; [None] in [a] or [m] is a [TypeError]. *)
Fixpoint pot_diff_loop (distance_threshold : float) (ds : list float)
    (diffs models : list (option float)) : result (list float) :=
  match ds, diffs, models with
  | d :: ds', a :: diffs', m :: models' =>
      if (distance_threshold <? d)%float then
        match a, m with
        | Some a, Some m =>
            rest ← pot_diff_loop distance_threshold ds' diffs' models';
            Ok ((a - m)%float :: rest)
        | _, _ => Raise TypeError
        end
      else pot_diff_loop distance_threshold ds' diffs' models'
  | _, _, _ => Ok []
  end.

(** [np.mean] of a list of floats, added from left to right (numpy adds
    eight or more elements in another order, which changes roundings
    only). *)
Definition np_mean (l : list float) : float :=
  (fold_left PrimFloat.add l 0 / float_of_int (count l))%float.

(** The second half: the average outside the sphere and the alignment. *)
Definition alignment_of (d : DefectCalc) (ewald : Ewald)
    (mp : ModelPotential) : result object :=
  let distance_threshold := calc_max_sphere_radius (perfect_lattice d) in
  pot_diff ← pot_diff_loop distance_threshold (distances_from_defect d)
                (diff_ep d) (model_pot mp);
  let ave_pot_diff := np_mean pot_diff in
  let alignment := (-1 * ave_pot_diff * float_of_int (charge d))%float in
  Ok (Correction_init (VMethod extended_fnv) (VEwald ewald)
        (VFloat ave_pot_diff) (VFloat alignment) VNone).

(** [Correction.compute_alignment_by_extended_fnv]; what it prints on the
    way is left out. *)
Definition compute_alignment_by_extended_fnv (lib : NumLib) (d : DefectCalc)
    (ewald : Ewald) : result object :=
  mp ← model_potential lib d ewald;
  alignment_of d ewald mp.

(** ** Predicates of the statements *)

(** [raises_within names r]: if [r] is an exception, it is one of [names]. *)
Definition raises_within {A} (names : list exn) (r : result A) : Prop :=
  forall e, r = Raise e -> e ∈ names.

(** The exceptions of the arithmetic: a division of Python floats or ints
    by zero, [int] of an infinity or of a NaN, an overflowing power, a root
    or a power of a negative number. *)
Definition arithmetic_errors : list exn :=
  [ZeroDivisionError; OverflowError; ValueError].

(** All the exceptions of the module. *)
Definition python_errors : list exn :=
  [LinAlgError; IndexError; TypeError] ++ arithmetic_errors.

(** A zero or a NaN, on the specification of a float. *)
Definition sf_zero_or_nan (s : spec_float) : Prop :=
  match s with
  | S754_zero _ | S754_nan => True
  | _ => False
  end.

(** [x == 0.0] or [x] is a NaN. *)
Definition zero_or_nan (x : float) : Prop :=
  is_zero x = true \/ is_nan x = true.

(** The objects the class makes: by the constructor, by either [from_dict],
    by the alignment, and from those by the setter. *)
Inductive constructed : object -> Prop :=
  | by_init method ewald diff_ave_pot alignment energy :
      constructed (Correction_init method ewald diff_ave_pot alignment energy)
  | by_from_dict d self :
      from_dict d = Ok self -> constructed self
  | by_from_dict_first d self :
      from_dict_first d = Ok self -> constructed self
  | by_alignment lib d ewald self :
      compute_alignment_by_extended_fnv lib d ewald = Ok self ->
      constructed self
  | by_setter self value :
      constructed self -> constructed (set_manually_set_energy self value).

(** One term of the real-space sum. *)
Definition real_term (lib : NumLib) (sigma : number) (epsilon_inv : matrix)
    (v : vec) : float :=
  let root := PrimFloat.sqrt (dot (vec_mat v epsilon_inv) v) in
  (special_erfc lib (value sigma * root) / root)%float.

(** The vectors the real-space loop does not skip. *)
Definition summed (vs : list vec) : list vec :=
  filter (fun v => (norm v <? 1e-8)%float = false) vs.

(** The object returned when nothing enters the average. *)
Definition nan_correction (ewald : Ewald) : object :=
  Correction_init (VMethod extended_fnv) (VEwald ewald) (VFloat nan)
    (VFloat nan) VNone.

(** No distance of [ds] exceeds the threshold. *)
Definition not_beyond (threshold : float) (ds : list float) : Prop :=
  Forall (fun x => (threshold <? x)%float = false) ds.

(** A model potential that is unset, zero or NaN. *)
Definition entry_zero_or_nan (m : option float) : Prop :=
  match m with
  | Some x => zero_or_nan x
  | None => True
  end.

(** ** More of the module and of what it calls *)

(** *** Dictionaries of the Ewald store *)

(** The dictionary [Ewald.as_dict] writes and [Ewald.from_dict] reads, by
    key: [None] for an absent key; a key that is present holds a value of
    the type [as_dict] writes (a count may be Python's [None]). *)
Record EwaldDict : Type := {
  item_lattice_matrix : option matrix;
  item_dielectric_tensor : option matrix;
  item_ewald_param : option number;
  item_prod_cutoff_fwhm : option float;
  item_num_real_lattice : option (option Z);
  item_num_reciprocal_lattice : option (option Z);
}.

(** [d[key]] for such a key. *)
Definition item {A} (v : option A) : result A :=
  match v with
  | Some a => Ok a
  | None => Raise KeyError
  end.

(** [Ewald.as_dict] *)
Definition Ewald_as_dict (self : Ewald) : EwaldDict :=
  {| item_lattice_matrix := Some (lattice_matrix self);
     item_dielectric_tensor := Some (dielectric_tensor self);
     item_ewald_param := Some (ewald_param self);
     item_prod_cutoff_fwhm := Some (prod_cutoff_fwhm self);
     item_num_real_lattice := Some (Some (num_real_lattice self));
     item_num_reciprocal_lattice := Some (Some (num_reciprocal_lattice self)) |}.

(** [Ewald.from_dict] *)
Definition Ewald_from_dict (lib : NumLib) (d : EwaldDict) : result Ewald :=
  lattice_matrix ← item (item_lattice_matrix d);
  dielectric_tensor ← item (item_dielectric_tensor d);
  ewald_param ← item (item_ewald_param d);
  prod_cutoff_fwhm ← item (item_prod_cutoff_fwhm d);
  num_real_lattice ← item (item_num_real_lattice d);
  num_reciprocal_lattice ← item (item_num_reciprocal_lattice d);
  Ewald_init lib lattice_matrix dielectric_tensor ewald_param prod_cutoff_fwhm
    num_real_lattice num_reciprocal_lattice.

(** *** [Correction.compute_correction] *)

(** The optimizer is called with its default band 1.05 and accuracy product
    25.0, for at most [fuel] turns, before the method is looked at. *)
Definition compute_correction (lib : NumLib) (fuel : nat) (d : DefectCalc)
    (ewald : option Ewald) (method : pyval) : option (result object) :=
  let correct (e : Ewald) : result object :=
    match method with
    | VMethod extended_fnv => compute_alignment_by_extended_fnv lib d e
    | _ => Raise ValueError
    end in
  match ewald with
  | Some e => Some (correct e)
  | None =>
      match from_optimization lib fuel (perfect_lattice d)
              (total_dielectric_tensor d) None 1.05 25 with
      | None => None
      | Some (Raise e) => Some (Raise e)
      | Some (Ok e) => Some (correct e)
      end
  end.

(** *** The supercell results ([SupercellDftResults] and its module) *)

(** [SupercellDftResults.relative_potential]: [mapping] is
    [defect_entry.atom_mapping_to_perfect], the two lists are the
    electrostatic potentials of the defect and of the perfect supercell, and
    [d_atom] counts the atoms of the defect supercell. *)
Fixpoint relative_potential (ep_defect ep_perfect : list float)
    (mapping : list (option nat)) (d_atom : nat)
  : result (list (option float)) :=
  match mapping with
  | [] => Ok []
  | None :: mapping' =>
      rest ← relative_potential ep_defect ep_perfect mapping' (S d_atom);
      Ok (None :: rest)
  | Some p_atom :: mapping' =>
      match ep_defect !! d_atom, ep_perfect !! p_atom with
      | Some a, Some b =>
          rest ← relative_potential ep_defect ep_perfect mapping' (S d_atom);
          Ok (Some (a - b)%float :: rest)
      | _, _ => Raise IndexError
      end
  end.

(** [min(l)] of a list of floats: an empty list raises. *)
Definition py_min_of (l : list float) : result float :=
  match l with
  | [] => Raise ValueError
  | x :: xs => Ok (py_min x xs)
  end.

(** [product((-1, 0, 1), repeat=3)] *)
Definition neighbor_images : list index :=
  product [-1; 0; 1] [-1; 0; 1] [-1; 0; 1].

(** The distances [min_distance_under_pbc] chooses from. *)
Definition image_distances (frac1 frac2 : vec) (lattice_vector_matrix : matrix)
  : list float :=
  let frac := mat_vec lattice_vector_matrix (vsub frac2 frac1) in
  (fun n =>
     norm (vadd (mat_vec lattice_vector_matrix (array_of_index n)) frac))
  <$> neighbor_images.

(** [min_distance_under_pbc] *)
Definition min_distance_under_pbc (frac1 frac2 : vec)
    (lattice_vector_matrix : matrix) : result float :=
  py_min_of (image_distances frac1 frac2 lattice_vector_matrix).

(** [distance_list] *)
Definition distance_list (lattice_vector_matrix : matrix)
    (frac_coords : list vec) (coords : vec) : result (list float) :=
  mapM (fun host => min_distance_under_pbc host coords lattice_vector_matrix)
    frac_coords.

(** *** The atom mapping of a defect entry *)

(** [l.pop(o)]: the list without its entry [o], where a negative [o]
    counts from the end; [IndexError] out of range. *)
Definition list_pop {A} (l : list A) (o : Z) : result (list A) :=
  let n := Z.of_nat (length l) in
  let i := if o <? 0 then o + n else o in
  if (i <? 0) || (n <=? i) then Raise IndexError
  else Ok (delete (Z.to_nat i) l).

(** [l.insert(i, x)]: the index is clipped to the list, nothing is
    raised. *)
Definition list_insert_at {A} (l : list A) (i : Z) (x : A) : list A :=
  let n := Z.of_nat (length l) in
  let i := if i <? 0 then Z.max 0 (i + n) else Z.min i n in
  take (Z.to_nat i) l ++ x :: drop (Z.to_nat i) l.

(** [sorted(l, reverse=True)] for a list of [int]s. *)
Definition sorted_reverse (l : list Z) : list Z := merge_sort (flip Z.le) l.

(** [for o in os: mapping.pop(o)] *)
Fixpoint pop_each {A} (mapping : list A) (os : list Z) : result (list A) :=
  match os with
  | [] => Ok mapping
  | o :: os' => mapping' ← list_pop mapping o; pop_each mapping' os'
  end.

(** [d.keys()] of a dictionary with [int] keys. *)
Definition keys {A} (d : gmap Z A) : list Z := (map_to_list d).*1.

Module DefectEntry.

(** [DefectEntry.atom_mapping_to_perfect] over what it reads: the number
    of atoms of [initial_structure], the dictionary [removed_atoms] and the
    list [inserted_atoms].
    <<
      total_nions_in_perfect = len(self.initial_structure)
          - len(self.inserted_atoms) + len(self.removed_atoms)
      mapping = list(range(total_nions_in_perfect))
      for o in sorted(self.removed_atoms.keys(), reverse=True):
          mapping.pop(o)
      for i in sorted(self.inserted_atoms, reverse=True):
          mapping.insert(i, None)
      return mapping
    >> *)
Definition atom_mapping_to_perfect (len_initial_structure : nat)
    (removed_atoms : gmap Z vec) (inserted_atoms : list Z)
  : result (list (option nat)) :=
  let total_nions_in_perfect :=
    Z.of_nat len_initial_structure - count inserted_atoms
    + count (keys removed_atoms) in
  let mapping := Some <$> seq 0 (Z.to_nat total_nions_in_perfect) in
  mapping ← pop_each mapping (sorted_reverse (keys removed_atoms));
  Ok (fold_left (fun mapping i => list_insert_at mapping i None)
        (sorted_reverse inserted_atoms) mapping).

End DefectEntry.

(** ** Predicates of the further statements *)

(** Not below zero: a zero of either sign, a positive number, [+inf], or a
    NaN. *)
Definition sf_not_negative (s : spec_float) : Prop :=
  match s with
  | S754_finite true _ _ | S754_infinity true => False
  | _ => True
  end.

(** [i] indexes an atom that the loop over [zip(distances_from_defect,
    diff_ep, model_pot)] tests and finds beyond the threshold. *)
Definition far_atom (threshold : float) (ds : list float)
    (diffs models : list (option float)) (i : nat) : Prop :=
  exists dist,
    ds !! i = Some dist /\ (threshold <? dist)%float = true
    /\ (i < length diffs)%nat /\ (i < length models)%nat.

(** The atoms of a perfect cell of [total] atoms that [removed_atoms] does
    not name, in increasing order. *)
Definition unremoved (total : nat) (removed_atoms : gmap Z vec) : list nat :=
  filter (fun j => removed_atoms !! Z.of_nat j = None) (seq 0 total).

(** ** An executable instance of the libraries *)

(** The statements below hold for every [NumLib].  To run the embedding on
    examples the record is instantiated here: the linear algebra by the
    cofactor formulas, the elementary functions by truncated series (close
    to, not bit for bit, what numpy and scipy return), the constants by
    their CODATA 2014 values. *)
Module FloatLib.

Definition det3 (m : matrix) : float := dot (row0 m) (cross (row1 m) (row2 m)).

Definition scale (c : float) (v : vec) : vec := V3 (c * vx v) (c * vy v) (c * vz v).

(** The rows [a_j x a_k / det]: the transposed inverse. *)
Definition inv3_T (m : matrix) : matrix :=
  let d := det3 m in
  M3 (scale (1 / d) (cross (row1 m) (row2 m)))
     (scale (1 / d) (cross (row2 m) (row0 m)))
     (scale (1 / d) (cross (row0 m) (row1 m))).

Definition inv3 (m : matrix) : option matrix :=
  if is_zero (det3 m) then None else Some (transpose (inv3_T m)).

Definition pi : float := 0x1.921fb54442d18p+1%float.
Definition ln2 : float := 0x1.62e42fefa39efp-1%float.

(** [sum_{k < n} x^k / k!], by Horner's rule from the last term. *)
Fixpoint exp_horner (x : float) (n : nat) (k : float) : float :=
  match n with
  | O => 1
  | S n' => (1 + x / k * exp_horner x n' (k + 1))%float
  end.

Fixpoint repeat_square (n : nat) (y : float) : float :=
  match n with
  | O => y
  | S n' => repeat_square n' (y * y)
  end.

Definition exp (x : float) : float :=
  repeat_square 10 (exp_horner (x / 1024) 24 1).

(** [2 atanh z = 2 (z + z^3/3 + ...)] summed from the last term. *)
Fixpoint atanh_horner (z2 : float) (n : nat) (k : float) : float :=
  match n with
  | O => 0
  | S n' => (1 / k + z2 * atanh_horner z2 n' (k + 2))%float
  end.

Definition log (x : float) : float :=
  let '(m, e) := Z.frexp x in
  let z := ((m - 1) / (m + 1))%float in
  (2 * z * atanh_horner (z * z) 40 1 + float_of_int e * ln2)%float.

Definition power (x y : float) : float :=
  if is_zero x then (if is_zero y then 1 else 0)%float else exp (y * log x).

(** Cosine by the series at [x / 1024] and ten angle doublings. *)
Fixpoint cos_horner (x2 : float) (n : nat) (k : float) : float :=
  match n with
  | O => 1
  | S n' => (1 - x2 / (k * (k + 1)) * cos_horner x2 n' (k + 2))%float
  end.

Fixpoint repeat_double_angle (n : nat) (c : float) : float :=
  match n with
  | O => c
  | S n' => repeat_double_angle n' (2 * c * c - 1)
  end.

Definition cos (x : float) : float :=
  let y := (x / 1024)%float in
  repeat_double_angle 10 (cos_horner (y * y) 12 1).

(** [erf] by its series for small arguments, [erfc] by its continued
    fraction for the others. *)
Fixpoint erf_horner (x2 : float) (n : nat) (k : float) : float :=
  match n with
  | O => 0
  | S n' =>
      (1 / (2 * k + 1) - x2 / (k + 1) * erf_horner x2 n' (k + 1))%float
  end.

Fixpoint erfc_fraction (x : float) (n : nat) (k : float) : float :=
  match n with
  | O => x
  | S n' => (x + k / 2 / erfc_fraction x n' (k + 1))%float
  end.

Definition erfc (x : float) : float :=
  if (x <? 2)%float then
    (1 - 2 / PrimFloat.sqrt pi * x * erf_horner (x * x) 60 0)%float
  else
    (exp (- (x * x)) / (PrimFloat.sqrt pi * erfc_fraction x 80 1))%float.

Definition geometric_mean (l : list float) : float :=
  exp (fold_left (fun s x => s + log x) l 0 / float_of_int (count l))%float.

Definition lib : NumLib := {|
  linalg_det := det3;
  linalg_inv := inv3;
  np_exp := exp;
  np_cos := cos;
  np_pi := pi;
  pow := power;
  special_erfc := erfc;
  gmean := geometric_mean;
  elementary_charge := 1.6021766208e-19;
  epsilon_0 := 8.854187817620389e-12;
  reciprocal_lattice := fun m =>
    let t := inv3_T m in
    M3 (scale (2 * pi) (row0 t)) (scale (2 * pi) (row1 t))
       (scale (2 * pi) (row2 t));
  volume := fun m => abs (dot (cross (row0 m) (row1 m)) (row2 m));
|}.

End FloatLib.

(** ** Example cells *)

Definition cubic (a : float) : matrix := M3 (V3 a 0 0) (V3 0 a 0) (V3 0 0 a).

Definition orthorhombic (a b c : float) : matrix :=
  M3 (V3 a 0 0) (V3 0 b 0) (V3 0 0 c).

(** Axes (1,0,0), (0,1,0), (1,1,2): angles of 90, 65.9 and 65.9 degrees. *)
Definition skew_cell : matrix := M3 (V3 1 0 0) (V3 0 1 0) (V3 1 1 2).

(** ** Example calculations *)

(** The state [from_optimization] returns for the 4 A cube with dielectric
    tensor diag(3,3,3), the accuracy product 5 and the executable
    libraries. *)
Definition ewald_4A : Ewald :=
  {| lattice_matrix := cubic 4;
     reciprocal_matrix := reciprocal_lattice FloatLib.lib (cubic 4);
     dielectric_tensor := cubic 3;
     ewald_param := NpFloat 0.44311346272635449;
     prod_cutoff_fwhm := 5;
     num_real_lattice := 81;
     num_reciprocal_lattice := 80 |}.

(** A vacancy at the origin of that cell with one atom left, at the
    fractional position [r] and the distance [dist] from the vacancy, whose
    potential differs by [dv] from the perfect cell's. *)
Definition one_atom_calc (q : Z) (r : vec) (dist dv : float) : DefectCalc :=
  {| total_dielectric_tensor := cubic 3;
     perfect_lattice := cubic 4;
     diff_ep := [Some dv];
     frac_coords := [r];
     atom_mapping_to_perfect := [Some 1%nat];
     charge := q;
     defect_coords := zeros3;
     distances_from_defect := [dist] |}.

(** The atom at the cell centre, 3.46 A away, outside the sphere of radius
    2 A; and an atom 1.73 A away, inside it. *)
Definition far_atom_calc (q : Z) : DefectCalc :=
  one_atom_calc q (V3 0.5 0.5 0.5) 3.4641016151377544 0.125.
Definition near_atom_calc (q : Z) : DefectCalc :=
  one_atom_calc q (V3 0.25 0.25 0.25) 1.7320508075688772 0.125.

(** ** Further sample inputs *)

(** Relative potentials and positions of a cell with two atoms of which
    the second is an inserted one, 3.46 A from the defect. *)
Definition interstitial_calc : DefectCalc :=
  {| total_dielectric_tensor := cubic 3;
     perfect_lattice := cubic 4;
     diff_ep := [Some 0.125%float; None];
     frac_coords := [V3 0.25 0.25 0.25; V3 0.5 0.5 0.5];
     atom_mapping_to_perfect := [Some 0%nat; None];
     charge := 1;
     defect_coords := zeros3;
     distances_from_defect := [1.7320508075688772; 3.4641016151377544]%float |}.


(** ** Evaluation *)

(** Closed goals are settled by the virtual machine: an equation whose left
    side evaluates to its right side, and a decidable proposition. *)
Ltac vm_refl :=
  lazymatch goal with
  | |- ?a = ?b => vm_cast_no_check (@eq_refl _ b)
  end.
Ltac vm_decide := apply (bool_decide_unpack _); vm_cast_no_check I.

(** ** Properties of the generator *)

Section generator.

Lemma elem_of_range a b k : k ∈ range a b <-> a <= k < b.
Proof. unfold range. rewrite elem_of_seqZ. lia. Qed.

Lemma NoDup_range a b : NoDup (range a b).
Proof. apply NoDup_seqZ. Qed.

Lemma elem_of_product xs ys zs (n : index) :
  n ∈ product xs ys zs <-> n.1.1 ∈ xs /\ n.1.2 ∈ ys /\ n.2 ∈ zs.
Proof.
  destruct n as [[x y] z]. unfold product. simpl. split.
  - intros (x' & (y' & (z' & Hn & Hz)%list_elem_of_bind & Hy)%list_elem_of_bind
            & Hx)%list_elem_of_bind.
    apply list_elem_of_singleton in Hn. by simplify_eq.
  - intros (Hx & Hy & Hz).
    apply list_elem_of_bind. exists x. split; [|done].
    apply list_elem_of_bind. exists y. split; [|done].
    apply list_elem_of_bind. exists z. split; [|done].
    by apply list_elem_of_singleton.
Qed.

Lemma NoDup_product xs ys zs :
  NoDup xs -> NoDup ys -> NoDup zs -> NoDup (product xs ys zs).
Proof.
  intros Hx Hy Hz. unfold product.
  apply NoDup_bind; [| |done].
  - intros x1 x2 n _ _
      (y1 & (z1 & E1 & _)%list_elem_of_bind & _)%list_elem_of_bind
      (y2 & (z2 & E2 & _)%list_elem_of_bind & _)%list_elem_of_bind.
    apply list_elem_of_singleton in E1, E2. congruence.
  - intros x _. apply NoDup_bind; [| |done].
    + intros y1 y2 n _ _ (z1 & E1 & _)%list_elem_of_bind
        (z2 & E2 & _)%list_elem_of_bind.
      apply list_elem_of_singleton in E1, E2. congruence.
    + intros y _. apply NoDup_bind; [| |done].
      * intros z1 z2 n _ _ E1 E2.
        apply list_elem_of_singleton in E1, E2. congruence.
      * intros z _. apply NoDup_singleton.
Qed.

Lemma elem_of_search_box m n : n ∈ search_box m <-> in_box m n.
Proof.
  unfold search_box, in_box. rewrite elem_of_product, !elem_of_range. lia.
Qed.

Lemma NoDup_search_box m : NoDup (search_box m).
Proof. apply NoDup_product; apply NoDup_range. Qed.

(** A loop that yields [f n] for the elements passing [p] is a map over a
    filter. *)
Lemma bind_if_fmap_filter {A B} (p : A -> bool) (f : A -> B) (l : list A) :
  (n ← l; if p n then [f n] else []) = f <$> filter (fun n => p n = true) l.
Proof.
  induction l as [|a l IH]; [done|].
  rewrite bind_cons, IH, filter_cons. by destruct (p a); case_decide.
Qed.

Lemma index_is_origin_spec n : index_is_origin n = true <-> n = (0, 0, 0).
Proof.
  destruct n as [[x y] z]. unfold index_is_origin. simpl.
  rewrite !andb_true_iff, !Z.eqb_eq. split; [intros [[-> ->] ->]|]; naive_solver.
Qed.

Lemma generate_as_filter lattice_vectors max_length include_self shift m :
  max_int lattice_vectors max_length = Ok m ->
  _generate_neighbor_lattices lattice_vectors max_length include_self shift
  = Ok ((fun n => vadd (cart_vector lattice_vectors n) shift) <$>
        filter (fun n => yielded lattice_vectors max_length include_self n = true)
               (search_box m)).
Proof.
  intros Hm. unfold _generate_neighbor_lattices. rewrite Hm. simpl. f_equal.
  rewrite <- bind_if_fmap_filter. apply list_bind_ext; [|done].
  intros n. unfold yielded.
  by destruct (negb include_self && index_is_origin n);
    destruct (norm _ <? _)%float.
Qed.

End generator.

(** C4 (as the code has it): whenever the three search ranges are defined,
    the generator yields [basis n + shift] for exactly the indices [n] of
    the search box, each taken once, that are not the origin unless
    [include_self] holds and whose unshifted vector [basis n] has a norm
    strictly below the cutoff. *)
Theorem generator_yields_filtered_box
    lattice_vectors max_length include_self shift m :
  max_int lattice_vectors max_length = Ok m ->
  exists ns : list index,
    _generate_neighbor_lattices lattice_vectors max_length include_self shift
    = Ok ((fun n => vadd (cart_vector lattice_vectors n) shift) <$> ns)
    /\ NoDup ns
    /\ forall n, n ∈ ns <->
         in_box m n
         /\ (include_self = true \/ n <> (0, 0, 0))
         /\ (norm (cart_vector lattice_vectors n) <? value max_length)%float
            = true.
Proof.
  intros Hm. eexists. split; [by apply generate_as_filter|]. split.
  - apply NoDup_filter, NoDup_search_box.
  - intros n. rewrite list_elem_of_filter, elem_of_search_box. unfold yielded.
    rewrite andb_true_iff, negb_true_iff, andb_false_iff, negb_false_iff.
    rewrite <- not_true_iff_false, index_is_origin_spec. tauto.
Qed.

Lemma generator_yields_filtered_box_witness :
  max_int (cubic 1) (PyFloat 1.5) = Ok (2, 2, 2) /\
  exists ns : list index,
    _generate_neighbor_lattices (cubic 1) (PyFloat 1.5) false (V3 10 0 0)
    = Ok ((fun n => vadd (cart_vector (cubic 1) n) (V3 10 0 0)) <$> ns)
    /\ NoDup ns
    /\ forall n, n ∈ ns <->
         in_box (2, 2, 2) n
         /\ (false = true \/ n <> (0, 0, 0))
         /\ (norm (cart_vector (cubic 1) n) <? 1.5)%float = true.
Proof.
  split; [vm_refl|].
  apply (generator_yields_filtered_box (cubic 1) (PyFloat 1.5) false
           (V3 10 0 0) (2, 2, 2)).
  vm_refl.
Defined.

(** C4 (as stated) fails twice.  With a shift the norm test is made on
    [basis n], not on the vector yielded: for the unit cube, cutoff 1.5 and
    shift (10,0,0) the generator yields (10,0,0), of norm 10.  And the
    search box can be too small under the angle assumption: for the axes
    (1,0,0), (0,1,0), (1,1,2) and cutoff 12.1 the box stops at 5 along the
    third axis, so the lattice vector (0,0,12) = -6 a0 - 6 a1 + 6 a2, of
    norm 12, is never yielded. *)
Lemma generator_contract_counterexample :
  (angles_in_60_120 (cubic 1) = true /\
   exists l,
     _generate_neighbor_lattices (cubic 1) (PyFloat 1.5) true (V3 10 0 0) = Ok l
     /\ V3 10 0 0 ∈ l
     /\ (norm (V3 10 0 0) <? 1.5)%float = false
     /\ ~ generator_contract (cubic 1) 1.5 true (V3 10 0 0) l)
  /\
  (angles_in_60_120 skew_cell = true /\
   exists l,
     _generate_neighbor_lattices skew_cell (PyFloat 12.1) true zeros3 = Ok l
     /\ vadd (cart_vector skew_cell (-6, -6, 6)) zeros3 = V3 0 0 12
     /\ (norm (V3 0 0 12) <? 12.1)%float = true
     /\ (V3 0 0 12 ∉ l)
     /\ ~ generator_contract skew_cell 12.1 true zeros3 l).
Proof.
  split.
  - split; [by vm_compute|]. eexists. split; [by vm_compute|].
    assert (Hin : V3 10 0 0 ∈ (n ← search_box (2, 2, 2);
              if negb true && index_is_origin n then []
              else if (norm (cart_vector (cubic 1) n) <? 1.5)%float
                   then [vadd (cart_vector (cubic 1) n) (V3 10 0 0)] else [])).
    { apply list_elem_of_bind. exists (0, 0, 0). split.
      - vm_compute. apply list_elem_of_here.
      - apply elem_of_search_box. unfold in_box. simpl. lia. }
    split; [exact Hin|]. split; [by vm_compute|].
    intros [_ Hc]. apply Hc in Hin as (n & _ & Hn & _).
    vm_compute in Hn. discriminate.
  - split; [by vm_compute|]. eexists. split; [by vm_compute|].
    split; [by vm_compute|]. split; [by vm_compute|].
    match goal with |- ?P /\ _ => assert (Hnot : P) end.
    { vm_decide. }
    split; [exact Hnot|].
    intros [_ Hc]. apply Hnot, Hc. exists (-6, -6, 6).
    split; [by vm_compute|]. split; [by vm_compute|]. by vm_compute.
Qed.


(** ** Facts on float comparisons and on products with zero *)

Section floats.

Lemma SFcompare_finite_same_sign m1 e1 m2 e2 :
  match (e1 ?= e2)%Z with
  | Eq => PosDef.Pos.compare_cont Eq m1 m2
  | Lt => Lt
  | Gt => Gt
  end = Lt <-> (e1 < e2 \/ (e1 = e2 /\ (m1 < m2)%positive)).
Proof.
  change (PosDef.Pos.compare_cont Eq m1 m2) with (Pos.compare m1 m2).
  destruct (Z.compare_spec e1 e2); [|intuition (try discriminate; lia)..].
  rewrite Pos.compare_lt_iff. intuition lia.
Qed.

Lemma SFcompare_finite_same_sign_opp m1 e1 m2 e2 :
  match (e1 ?= e2)%Z with
  | Eq => CompOpp (PosDef.Pos.compare_cont Eq m1 m2)
  | Lt => Gt
  | Gt => Lt
  end = Lt <-> (e2 < e1 \/ (e1 = e2 /\ (m2 < m1)%positive)).
Proof.
  change (PosDef.Pos.compare_cont Eq m1 m2) with (Pos.compare m1 m2).
  destruct (Z.compare_spec e1 e2); [|intuition (try discriminate; lia)..].
  destruct (Pos.compare_spec m1 m2); simpl; intuition (try discriminate; lia).
Qed.

Lemma SFltb_trans x y z :
  SFltb x y = true -> SFltb y z = true -> SFltb x z = true.
Proof.
  unfold SFltb.
  destruct (SFcompare x y) as [[]|] eqn:Hxy; try discriminate.
  destruct (SFcompare y z) as [[]|] eqn:Hyz; try discriminate.
  intros _ _.
  assert (SFcompare x z = Some Lt) as ->; [|done].
  destruct x as [sx|sx| |sx mx ex], y as [sy|sy| |sy my ey],
    z as [sz|sz| |sz mz ez]; simpl in *; try discriminate;
    repeat match goal with s : bool |- _ => destruct s end;
    simpl in *; try discriminate; try reflexivity;
    simplify_eq; f_equal.
  - apply SFcompare_finite_same_sign_opp.
    match goal with H : _ = Lt |- _ => apply SFcompare_finite_same_sign_opp in H end.
    match goal with H : _ = Lt |- _ => apply SFcompare_finite_same_sign_opp in H end.
    lia.
  - apply SFcompare_finite_same_sign.
    match goal with H : _ = Lt |- _ => apply SFcompare_finite_same_sign in H end.
    match goal with H : _ = Lt |- _ => apply SFcompare_finite_same_sign in H end.
    lia.
Qed.

Lemma ltb_trans (x y z : float) :
  (x <? y)%float = true -> (y <? z)%float = true -> (x <? z)%float = true.
Proof. rewrite !ltb_spec. apply SFltb_trans. Qed.


Lemma SFcompare_refl_finite s m e :
  SFcompare (S754_finite s m e) (S754_finite s m e) = Some Eq.
Proof.
  simpl. rewrite Z.compare_refl.
  change (PosDef.Pos.compare_cont Eq m m) with (Pos.compare m m).
  rewrite Pos.compare_refl. by destruct s.
Qed.

Lemma zero_or_nan_spec x : zero_or_nan x <-> sf_zero_or_nan (Prim2SF x).
Proof.
  unfold zero_or_nan, is_zero, is_nan. rewrite !eqb_spec.
  change (Prim2SF zero) with (S754_zero false). unfold SFeqb.
  destruct (Prim2SF x) as [s|s| |s m e].
  - simpl. tauto.
  - destruct s; simpl; intuition discriminate.
  - simpl. tauto.
  - rewrite SFcompare_refl_finite. destruct s; simpl; intuition discriminate.
Qed.

Lemma is_nan_spec x : is_nan x = true <-> x = nan.
Proof.
  split; [|by intros ->].
  unfold is_nan. rewrite eqb_spec. unfold SFeqb. intros H.
  apply Prim2SF_inj. change (Prim2SF nan) with S754_nan.
  destruct (Prim2SF x) as [s|s| |s m e]; [by destruct s..|done|].
  by rewrite SFcompare_refl_finite in H.
Qed.

Lemma zero_or_nan_mul_l x y : zero_or_nan x -> zero_or_nan (x * y).
Proof.
  rewrite !zero_or_nan_spec, mul_spec. unfold SF64mul, SFmul.
  by destruct (Prim2SF x), (Prim2SF y).
Qed.

Lemma zero_or_nan_mul_r x y : zero_or_nan y -> zero_or_nan (x * y).
Proof.
  rewrite !zero_or_nan_spec, mul_spec. unfold SF64mul, SFmul.
  by destruct (Prim2SF x), (Prim2SF y).
Qed.

Lemma zero_or_nan_div_l x y : zero_or_nan x -> zero_or_nan (x / y).
Proof.
  rewrite !zero_or_nan_spec, div_spec. unfold SF64div, SFdiv.
  by destruct (Prim2SF x), (Prim2SF y).
Qed.

Lemma nan_mul_l x : (nan * x)%float = nan.
Proof. apply Prim2SF_inj. by rewrite mul_spec. Qed.

Lemma float_of_int_0 : float_of_int 0 = 0%float.
Proof. reflexivity. Qed.

End floats.

(** ** Reasoning on the error monad *)

Section monad.
Context {A B : Type}.

Lemma bind_Ok (m : result A) (f : A -> result B) (b : B) :
  m ≫= f = Ok b <-> exists a, m = Ok a /\ f a = Ok b.
Proof.
  destruct m as [a|e]; simpl; split.
  - intros H. by exists a.
  - by intros (a' & [= ->] & H).
  - discriminate.
  - by intros (a' & [=] & _).
Qed.

Lemma bind_Raise (m : result A) (f : A -> result B) (e : exn) :
  m ≫= f = Raise e <-> m = Raise e \/ exists a, m = Ok a /\ f a = Raise e.
Proof.
  destruct m as [a|e']; simpl; split.
  - intros H. right. by exists a.
  - by intros [[=]|(a' & [= ->] & H)].
  - intros [= ->]. by left.
  - by intros [[= ->]|(a' & [=] & _)].
Qed.

End monad.

Section raises.
Context {A B : Type} (names : list exn).

Lemma raises_within_Ok (a : A) : raises_within names (Ok a).
Proof. by intros e. Qed.

Lemma raises_within_Raise e : e ∈ names -> raises_within names (@Raise A e).
Proof. by intros He e' [= <-]. Qed.

Lemma raises_within_bind (m : result A) (f : A -> result B) :
  raises_within names m -> (forall a, m = Ok a -> raises_within names (f a)) ->
  raises_within names (m ≫= f).
Proof.
  intros Hm Hf e [He|(a & Ha & He)]%bind_Raise; [by apply Hm|].
  by apply (Hf a).
Qed.

Lemma raises_within_if (b : bool) (r1 r2 : result A) :
  raises_within names r1 -> raises_within names r2 ->
  raises_within names (if b then r1 else r2).
Proof. by destruct b. Qed.

End raises.

Lemma raises_within_python {A} (r : result A) :
  raises_within arithmetic_errors r -> raises_within python_errors r.
Proof.
  intros H e He. unfold python_errors. apply elem_of_app. right. by apply H.
Qed.

Ltac raises_step :=
  first
    [ apply raises_within_Ok
    | apply raises_within_Raise; vm_decide
    | apply raises_within_bind; [|intros ? ?]
    | apply raises_within_if ].

Section arithmetic_raises.

Lemma num_div_raises a b : raises_within arithmetic_errors (num_div a b).
Proof. unfold num_div. destruct a, b; repeat raises_step. Qed.

Lemma int_of_float_raises x : raises_within arithmetic_errors (int_of_float x).
Proof. unfold int_of_float. destruct (Prim2SF x); repeat raises_step. Qed.

Lemma int_truediv_raises n m : raises_within arithmetic_errors (int_truediv n m).
Proof. unfold int_truediv. repeat raises_step. Qed.

Lemma float_pow_raises lib x y :
  raises_within arithmetic_errors (float_pow lib x y).
Proof. unfold float_pow. repeat raises_step. Qed.

Lemma math_pow_raises lib x y :
  raises_within arithmetic_errors (math_pow lib x y).
Proof. unfold math_pow. raises_step; [raises_step|apply float_pow_raises]. Qed.

Lemma math_sqrt_raises x : raises_within arithmetic_errors (math_sqrt x).
Proof. unfold math_sqrt. repeat raises_step. Qed.

Lemma num_pow_raises lib a y :
  raises_within arithmetic_errors (num_pow lib a y).
Proof.
  unfold num_pow. destruct a; [|raises_step].
  raises_step; [apply float_pow_raises|raises_step].
Qed.

Lemma max_int_raises lattice_vectors max_length :
  raises_within arithmetic_errors (max_int lattice_vectors max_length).
Proof.
  unfold max_int, axis_max_int.
  repeat first [apply int_of_float_raises | raises_step].
Qed.

Lemma generate_raises lattice_vectors max_length include_self shift :
  raises_within arithmetic_errors
    (_generate_neighbor_lattices lattice_vectors max_length include_self shift).
Proof.
  unfold _generate_neighbor_lattices.
  raises_step; [apply max_int_raises|raises_step].
Qed.

Lemma neighbor_lattices_raises lattice reciprocal sigma P include_self shift
    is_reciprocal :
  raises_within arithmetic_errors
    (neighbor_lattices lattice reciprocal sigma P include_self shift
       is_reciprocal).
Proof.
  unfold neighbor_lattices, r_max. destruct is_reciprocal; cbn [negb].
  - apply generate_raises.
  - raises_step; [apply num_div_raises|apply generate_raises].
Qed.

Lemma in_band_raises c d : raises_within arithmetic_errors (in_band c d).
Proof. unfold in_band. raises_step; [apply num_div_raises|raises_step]. Qed.

End arithmetic_raises.

(** ** The optimizer *)

Section optimizer_facts.
Context (lib : NumLib).
Context (real_lattice reciprocal epsilon : matrix).
Context (cube_root_vol root_det convergence P : float).

#[local] Abbreviation turn_of := (optimization_turn lib real_lattice reciprocal epsilon
                       cube_root_vol root_det convergence P).
#[local] Abbreviation loop_of := (optimization_loop lib real_lattice reciprocal epsilon
                       cube_root_vol root_det convergence P).

(** A turn returns only from inside the band, and what it returns holds
    the counts of that turn at the cutoffs of the returned parameter. *)
Lemma turn_Return p st :
  turn_of p = Ok (Return st) ->
  exists max_r rs gs d,
    r_max P (ewald_param st) = Ok max_r
    /\ _generate_neighbor_lattices real_lattice max_r true zeros3 = Ok rs
    /\ _generate_neighbor_lattices reciprocal
         (g_max P (ewald_param st)) false zeros3 = Ok gs
    /\ int_truediv (count rs) (count gs) = Ok d
    /\ in_band convergence d = Ok true
    /\ st = {| lattice_matrix := real_lattice;
               reciprocal_matrix := reciprocal_lattice lib real_lattice;
               dielectric_tensor := epsilon;
               ewald_param := ewald_param st;
               prod_cutoff_fwhm := P;
               num_real_lattice := count rs;
               num_reciprocal_lattice := count gs |}.
Proof.
  unfold optimization_turn.
  intros (q & Hq & H)%bind_Ok.
  apply bind_Ok in H as (max_r & Hr & H).
  apply bind_Ok in H as (rs & Hrs & H).
  apply bind_Ok in H as (gs & Hgs & H).
  apply bind_Ok in H as (d & Hd & H).
  apply bind_Ok in H as (b & Hb & H).
  destruct b.
  - apply bind_Ok in H as (e & He & [= <-]).
    simpl in He. injection He as <-. simpl.
    by exists max_r, rs, gs, d.
  - by apply bind_Ok in H as (x & _ & [=]).
Qed.

Lemma turn_raises p :
  raises_within arithmetic_errors (turn_of p).
Proof.
  unfold optimization_turn.
  raises_step; [apply num_div_raises|].
  raises_step; [apply num_div_raises|].
  raises_step; [apply generate_raises|].
  raises_step; [apply generate_raises|].
  raises_step; [apply int_truediv_raises|].
  raises_step; [apply in_band_raises|].
  destruct a4; simpl.
  - repeat raises_step.
  - raises_step; [apply float_pow_raises|raises_step].
Qed.

Lemma loop_Ok fuel p0 st :
  loop_of fuel p0 = Some (Ok st) ->
  exists p, turn_of p = Ok (Return st).
Proof.
  revert p0. induction fuel as [|fuel IH]; intros p; [done|]. simpl.
  destruct (turn_of p) as [[st'|p']|e] eqn:Hturn.
  - intros [= <-]. by exists p.
  - apply IH.
  - done.
Qed.

Lemma loop_raises fuel p0 e :
  loop_of fuel p0 = Some (Raise e) -> e ∈ arithmetic_errors.
Proof.
  revert p0. induction fuel as [|fuel IH]; intros p; [done|]. simpl.
  destruct (turn_of p) as [[st'|p']|e'] eqn:Hturn.
  - done.
  - apply IH.
  - intros [= <-]. by apply (turn_raises p).
Qed.

(** More fuel does not change an outcome already reached. *)
Lemma loop_fuel_mono fuel fuel' p0 r :
  (fuel <= fuel')%nat -> loop_of fuel p0 = Some r -> loop_of fuel' p0 = Some r.
Proof.
  revert fuel' p0. induction fuel as [|fuel IH]; intros fuel' p Hle; [done|].
  destruct fuel' as [|fuel']; [lia|]. simpl.
  destruct (turn_of p) as [[st'|p']|e]; [done| |done].
  apply IH. lia.
Qed.

End optimizer_facts.


Lemma start_raises lib structure epsilon initial_value :
  raises_within arithmetic_errors
    (optimization_start lib structure epsilon initial_value).
Proof.
  unfold optimization_start.
  raises_step; [apply math_sqrt_raises|].
  raises_step; [apply math_pow_raises|].
  destruct initial_value; raises_step.
Qed.

Lemma from_optimization_raises lib fuel structure epsilon initial_value
    convergence P e :
  from_optimization lib fuel structure epsilon initial_value convergence P
  = Some (Raise e) ->
  e ∈ arithmetic_errors.
Proof.
  unfold from_optimization.
  destruct (optimization_start _ _ _ _) as [[[crv rd] p]|e'] eqn:Hs.
  - apply loop_raises.
  - intros [= <-]. by apply (start_raises _ _ _ _ _ Hs).
Qed.


Lemma from_optimization_fuel_mono lib fuel fuel' structure epsilon
    initial_value convergence P r :
  (fuel <= fuel')%nat ->
  from_optimization lib fuel structure epsilon initial_value convergence P
  = Some r ->
  from_optimization lib fuel' structure epsilon initial_value convergence P
  = Some r.
Proof.
  intros Hle. unfold from_optimization.
  destruct (optimization_start _ _ _ _) as [[[crv rd] p]|e']; [|done].
  by apply loop_fuel_mono.
Qed.




(** With the executable libraries and the accuracy product 5 the same call
    is still iterating after three turns; and with the default band and
    the accuracy product 1 no reciprocal vector is within the cutoff, so
    the first turn divides by zero. *)
Example optimizer_still_iterating :
  from_optimization FloatLib.lib 3 (cubic 4) (cubic 3) None 1 5 = None.
Proof. vm_refl. Qed.

Example optimizer_divides_by_zero :
  from_optimization FloatLib.lib 1 (cubic 4) (cubic 3) None 1.05 1
  = Some (Raise ZeroDivisionError).
Proof. vm_refl. Qed.



(** ** The Ewald parameter store *)

(** The counts [__init__] computes: both are taken over the real lattice
    within [r_max]; the second call differs from the first by
    [include_self=False] only, its [is_reciprocal] being [False] too. *)
Lemma init_counts lib lattice epsilon sigma P st :
  Ewald_init lib lattice epsilon sigma P None None = Ok st ->
  (exists rs, generate_neighbor_lattices st true zeros3 false = Ok rs
              /\ num_real_lattice st = count rs)
  /\ (exists ls, generate_neighbor_lattices st false zeros3 false = Ok ls
                 /\ num_reciprocal_lattice st = count ls).
Proof.
  unfold Ewald_init.
  intros (n1 & (rs & Hrs & [= <-])%bind_Ok & H)%bind_Ok.
  apply bind_Ok in H as (n2 & (ls & Hls & [= <-])%bind_Ok & [= <-]).
  unfold generate_neighbor_lattices. simpl.
  split; eexists; (split; [eassumption|reflexivity]).
Qed.

(** C2 at a failing input: for the 4 A cube, the splitting parameter 0.44
    and the accuracy product 5, [__init__] stores 92 as the count of
    reciprocal vectors, the number of real-lattice vectors within [r_max]
    less the origin, while the generator drained over the reciprocal
    lattice within [g_max] yields 80 vectors. *)
Example init_reciprocal_count_example :
  exists st,
    Ewald_init FloatLib.lib (cubic 4) (cubic 3) (PyFloat 0.44) 5 None None
    = Ok st
    /\ num_real_lattice st = 93
    /\ num_reciprocal_lattice st = 92
    /\ exists gs, generate_neighbor_lattices st false zeros3 true = Ok gs
                  /\ count gs = 80.
Proof.
  eexists. split; [vm_compute; reflexivity|]. split; [done|]. split; [done|].
  eexists. split; [vm_compute; reflexivity|vm_refl].
Qed.

(** ** The interaction sphere *)

(** C5 at a failing input: for the 2 x 4 x 6 cell the inter-plane distances
    are 2, 4 and 6; the threshold is 3, half the longest, not 1, half the
    shortest; and an atom at distance 2 from the defect is left out of the
    average. *)
Example sphere_radius_example :
  calc_distance_two_planes (orthorhombic 2 4 6) = [2; 4; 6]%float
  /\ calc_max_sphere_radius (orthorhombic 2 4 6) = 3%float
  /\ half_shortest_plane_distance (orthorhombic 2 4 6) = 1%float
  /\ pot_diff_loop (calc_max_sphere_radius (orthorhombic 2 4 6))
       [2; 3.5]%float [Some 0.5; Some 0.25]%float [Some 0; Some 0]%float
     = Ok [0.25%float].
Proof. repeat split; vm_refl. Qed.

(** ** Correction objects *)

Lemma init_has_no_corrected_energy method ewald diff_ave_pot alignment energy :
  Correction_init method ewald diff_ave_pot alignment energy
    !! "_corrected_energy" = None.
Proof. unfold Correction_init. by rewrite !lookup_insert_ne. Qed.

Lemma constructed_has_no_corrected_energy (self : object) :
  constructed self -> self !! "_corrected_energy" = None.
Proof.
  induction 1 as [| d self H | d self H | lib d ewald self H | self v _ IH].
  - apply init_has_no_corrected_energy.
  - unfold from_dict in H. by apply bind_Ok in H as (? & _ & [=]).
  - unfold from_dict_first in H.
    apply bind_Ok in H as (? & _ & H). apply bind_Ok in H as (? & _ & H).
    apply bind_Ok in H as (? & _ & H). apply bind_Ok in H as (? & _ & H).
    apply bind_Ok in H as (? & _ & H). apply bind_Ok in H as (? & _ & [= <-]).
    apply init_has_no_corrected_energy.
  - unfold compute_alignment_by_extended_fnv, alignment_of in H.
    apply bind_Ok in H as (? & _ & H). apply bind_Ok in H as (? & _ & [= <-]).
    apply init_has_no_corrected_energy.
  - unfold set_manually_set_energy. by rewrite lookup_insert_ne.
Qed.

(** C10: reading [corrected_energy] of a [Correction] raises
    [AttributeError], however the object was made: nothing assigns the
    attribute [_corrected_energy] the property reads. *)
Theorem corrected_energy_raises (self : object) :
  constructed self -> corrected_energy self = Raise AttributeError.
Proof.
  intros H. unfold corrected_energy, getattr.
  by rewrite (constructed_has_no_corrected_energy self H).
Qed.

Lemma corrected_energy_raises_witness :
  constructed (set_manually_set_energy
                 (Correction_init (VMethod extended_fnv) VNone (VFloat 0.5)
                    (VFloat (-1)) VNone) (VFloat 0.25))
  /\ corrected_energy
       (set_manually_set_energy
          (Correction_init (VMethod extended_fnv) VNone (VFloat 0.5)
             (VFloat (-1)) VNone) (VFloat 0.25))
     = Raise AttributeError.
Proof.
  assert (H : constructed
                (set_manually_set_energy
                   (Correction_init (VMethod extended_fnv) VNone (VFloat 0.5)
                      (VFloat (-1)) VNone) (VFloat 0.25)))
    by (apply by_setter, by_init).
  split; [exact H|]. exact (corrected_energy_raises _ H).
Defined.

(** C7 at every input: the [as_dict] the class ends up with returns the
    empty dictionary, on which its [from_dict] raises [KeyError]; and the
    pair it replaces does not round-trip either, because [as_dict] writes
    [str(method)], "CorrectionMethod.extended_fnv", where [from_dict]
    looks the method up by its value, "Extended FNV". *)
Theorem round_trip_raises :
  (forall self : object, as_dict self ≫= from_dict = Raise KeyError)
  /\ (forall m ewald diff_ave_pot alignment energy,
        as_dict_first
          (Correction_init (VMethod m) ewald diff_ave_pot alignment energy)
        ≫= from_dict_first
        = Raise ValueError).
Proof.
  split; [done|]. by intros [] ewald diff_ave_pot alignment energy.
Qed.

(** ** The model potential and the alignment *)

Section potential_facts.
Context (lib : NumLib).

Lemma real_summation_filter_from sigma epsilon_inv vs s0 :
  fold_left
    (fun summation v =>
       if (norm v <? 1e-8)%float then summation
       else
         let root_r_inv_epsilon_r :=
           PrimFloat.sqrt (dot (vec_mat v epsilon_inv) v) in
         (summation
          + special_erfc lib (value sigma * root_r_inv_epsilon_r)
            / root_r_inv_epsilon_r)%float)
    vs s0
  = fold_left (fun s v => (s + real_term lib sigma epsilon_inv v)%float)
      (summed vs) s0.
Proof.
  revert s0. induction vs as [|v vs IH]; intros s0; [done|].
  unfold summed. rewrite filter_cons. simpl.
  destruct (norm v <? 1e-8)%float eqn:Hv; case_decide; try done; simpl;
    apply IH.
Qed.

Lemma real_summation_filter sigma epsilon_inv vs :
  real_summation lib sigma epsilon_inv vs
  = fold_left (fun s v => (s + real_term lib sigma epsilon_inv v)%float)
      (summed vs) 0%float.
Proof. apply real_summation_filter_from. Qed.

(** Exceptions of the two halves. *)
Lemma positions_raises coords mapping i :
  raises_within python_errors (positions_without_defect coords mapping i).
Proof.
  revert i. induction mapping as [|[j|] mapping IH]; intros i; simpl.
  - raises_step.
  - destruct (coords !! i); [|raises_step].
    raises_step; [apply IH|raises_step].
  - apply IH.
Qed.

Lemma real_part_raises ewald shift :
  raises_within python_errors (real_part lib ewald shift).
Proof.
  unfold real_part, np_linalg_inv.
  raises_step; [destruct (linalg_inv _ _); raises_step|].
  raises_step; [apply raises_within_python, neighbor_lattices_raises|].
  raises_step.
Qed.

Lemma reciprocal_summation_raises sigma epsilon r gs s0 :
  raises_within python_errors
    (reciprocal_summation lib sigma epsilon r gs s0).
Proof.
  revert s0. induction gs as [|g gs IH]; intros s0; simpl; [raises_step|].
  raises_step; [apply raises_within_python, num_pow_raises|apply IH].
Qed.

Lemma reciprocal_part_raises ewald epsilon vol r :
  raises_within python_errors (reciprocal_part lib ewald epsilon vol r).
Proof.
  unfold reciprocal_part.
  raises_step; [apply raises_within_python, neighbor_lattices_raises|].
  raises_step; [apply reciprocal_summation_raises|raises_step].
Qed.

Lemma atoms_loop_raises ewald epsilon vol diff_pot coeff center i positions mp :
  raises_within python_errors
    (atoms_loop lib ewald epsilon vol diff_pot coeff center i positions mp).
Proof.
  revert i mp. induction positions as [|r positions IH]; intros i mp; simpl.
  - raises_step.
  - raises_step; [apply real_part_raises|].
    raises_step; [apply reciprocal_part_raises|].
    case_decide; [apply IH|raises_step].
Qed.

Lemma model_potential_raises d ewald :
  raises_within python_errors (model_potential lib d ewald).
Proof.
  unfold model_potential.
  raises_step; [apply positions_raises|].
  raises_step; [apply raises_within_python, num_div_raises|].
  raises_step; [apply raises_within_python, neighbor_lattices_raises|].
  raises_step; [apply raises_within_python, num_pow_raises|].
  raises_step; [apply atoms_loop_raises|].
  raises_step; [apply real_part_raises|].
  raises_step; [apply reciprocal_part_raises|raises_step].
Qed.

Lemma pot_diff_loop_raises threshold ds diffs models :
  raises_within python_errors (pot_diff_loop threshold ds diffs models).
Proof.
  revert diffs models.
  induction ds as [|x ds IH]; intros [|a diffs] [|m models]; simpl;
    try solve [raises_step].
  destruct (threshold <? x)%float; [|apply IH].
  destruct a, m; try solve [raises_step].
  raises_step; [apply IH|raises_step].
Qed.

Lemma compute_alignment_raises d ewald :
  raises_within python_errors (compute_alignment_by_extended_fnv lib d ewald).
Proof.
  unfold compute_alignment_by_extended_fnv, alignment_of.
  raises_step; [apply model_potential_raises|].
  raises_step; [apply pot_diff_loop_raises|raises_step].
Qed.

(** With no distance beyond the threshold nothing enters [pot_diff]. *)
Lemma pot_diff_loop_none threshold ds diffs models :
  Forall (fun x => (threshold <? x)%float = false) ds ->
  pot_diff_loop threshold ds diffs models = Ok [].
Proof.
  intros H. revert diffs models.
  induction H as [|x ds Hx _ IH]; intros [|a diffs] [|m models]; simpl;
    try done.
  rewrite Hx. apply IH.
Qed.

End potential_facts.

(** C8 (as the code has it): the real-space term at a site sums
    [erfc(sigma s) / s], [s = sqrt(v eps^-1 v)], over the vectors [v] the
    generator yields with the shift of that site, leaving out exactly those
    of norm below 1e-8, whatever the shift is, and divides the sum by
    [4 pi sqrt(det eps)]. *)
Theorem real_part_sums_vectors_above_threshold lib ewald shift :
  real_part lib ewald shift
  = (epsilon_inv ← np_linalg_inv lib (dielectric_tensor ewald);
     vs ← generate_neighbor_lattices ewald true shift false;
     Ok (fold_left
           (fun s v => s + real_term lib (ewald_param ewald) epsilon_inv v)
           (summed vs) 0
         / (4 * np_pi lib
            * PrimFloat.sqrt (linalg_det lib (dielectric_tensor ewald))))%float).
Proof.
  unfold real_part. destruct (np_linalg_inv _ _) as [epsilon_inv|e]; [|done].
  simpl. destruct (generate_neighbor_lattices _ _ _ _) as [vs|e]; [|done].
  simpl. by rewrite real_summation_filter.
Qed.

(** C8 (as stated) fails: for a site displaced by (1e-9, 0, 0) from the
    defect centre, which is not the defect site, the generator yields the
    displacement itself (the origin, shifted), and the loop skips it: 81
    vectors are generated and 80 are summed. *)
Lemma real_part_drops_a_summand_counterexample :
  vsub (V3 1e-9 0 0) zeros3 <> zeros3
  /\ exists vs,
       generate_neighbor_lattices ewald_4A true (vsub (V3 1e-9 0 0) zeros3)
         false = Ok vs
       /\ V3 1e-9 0 0 ∈ vs
       /\ (V3 1e-9 0 0 ∉ summed vs)
       /\ count vs = 81
       /\ count (summed vs) = 80.
Proof.
  split; [by vm_compute|]. eexists. split; [vm_compute; reflexivity|].
  split; [vm_decide|]. split; [vm_decide|]. split; vm_refl.
Qed.

Lemma alignment_of_empty_shell d ewald mp :
  not_beyond (calc_max_sphere_radius (perfect_lattice d))
    (distances_from_defect d) ->
  alignment_of d ewald mp = Ok (nan_correction ewald).
Proof.
  intros H. unfold alignment_of. rewrite pot_diff_loop_none by done. simpl.
  unfold nan_correction. do 3 f_equal.
  change (np_mean []) with nan. change (-1 * nan)%float with nan.
  apply nan_mul_l.
Qed.

(** C6 (as the code has it): when no atom lies beyond the threshold, the
    alignment raises no [NoAtomsOutsideCutoffError]: once the model
    potential is computed, it returns a [Correction] whose average
    potential difference and alignment energy are NaN. *)
Theorem empty_shell_gives_nan lib d ewald :
  not_beyond (calc_max_sphere_radius (perfect_lattice d))
    (distances_from_defect d) ->
  compute_alignment_by_extended_fnv lib d ewald
  = (_ ← model_potential lib d ewald; Ok (nan_correction ewald))
  /\ compute_alignment_by_extended_fnv lib d ewald
     <> Raise "NoAtomsOutsideCutoffError".
Proof.
  intros H. split.
  - unfold compute_alignment_by_extended_fnv.
    destruct (model_potential lib d ewald) as [mp|e]; [|done]. simpl.
    by apply alignment_of_empty_shell.
  - intros He. apply compute_alignment_raises in He. revert He. vm_decide.
Qed.

Lemma empty_shell_gives_nan_witness :
  not_beyond (calc_max_sphere_radius (perfect_lattice (near_atom_calc (-2))))
    (distances_from_defect (near_atom_calc (-2)))
  /\ compute_alignment_by_extended_fnv FloatLib.lib (near_atom_calc (-2))
       ewald_4A
     = (_ ← model_potential FloatLib.lib (near_atom_calc (-2)) ewald_4A;
        Ok (nan_correction ewald_4A))
  /\ compute_alignment_by_extended_fnv FloatLib.lib (near_atom_calc (-2))
       ewald_4A
     <> Raise "NoAtomsOutsideCutoffError".
Proof.
  assert (H : not_beyond
                (calc_max_sphere_radius (perfect_lattice (near_atom_calc (-2))))
                (distances_from_defect (near_atom_calc (-2)))).
  { repeat constructor. }
  split; [exact H|].
  exact (empty_shell_gives_nan FloatLib.lib (near_atom_calc (-2)) ewald_4A H).
Defined.

(** C6 (as stated) fails: for the vacancy with its one atom 1.73 A away,
    inside the sphere of radius 2 A, the call returns a [Correction] with
    NaN for the average potential difference and for the alignment; and
    whatever the libraries compute, it does not raise
    [NoAtomsOutsideCutoffError]. *)
Lemma empty_shell_counterexample :
  (calc_max_sphere_radius (perfect_lattice (near_atom_calc (-2)))
   <? 1.7320508075688772)%float = false
  /\ compute_alignment_by_extended_fnv FloatLib.lib (near_atom_calc (-2))
       ewald_4A
     = Ok (nan_correction ewald_4A)
  /\ ~ exists lib,
         compute_alignment_by_extended_fnv lib (near_atom_calc (-2)) ewald_4A
         = Raise "NoAtomsOutsideCutoffError".
Proof.
  split; [vm_refl|]. split; [vm_refl|].
  intros [lib He]. apply compute_alignment_raises in He. revert He. vm_decide.
Qed.

(** ** Zero charge *)

Lemma zero_or_nan_0 : zero_or_nan 0.
Proof. by left. Qed.

Lemma atoms_loop_zero lib ewald epsilon vol diff_pot coeff center i positions
    mp mp' :
  zero_or_nan coeff ->
  Forall entry_zero_or_nan mp ->
  atoms_loop lib ewald epsilon vol diff_pot coeff center i positions mp
  = Ok mp' ->
  Forall entry_zero_or_nan mp'.
Proof.
  intros Hc. revert i mp.
  induction positions as [|r positions IH]; intros i mp Hmp; simpl.
  - by intros [= <-].
  - intros (real & _ & H)%bind_Ok. apply bind_Ok in H as (rec & _ & H).
    case_decide; [|done]. apply IH in H; [done|].
    apply Forall_insert; [done|]. by apply zero_or_nan_mul_r.
Qed.

(** C9 (as the code has it): for a defect charge of zero, every model
    potential, the lattice energy and the alignment energy are each either
    exactly zero or NaN. *)
Theorem zero_charge_gives_zero_or_nan lib d ewald mp self :
  charge d = 0 ->
  model_potential lib d ewald = Ok mp ->
  alignment_of d ewald mp = Ok self ->
  Forall entry_zero_or_nan (model_pot mp)
  /\ zero_or_nan (model_pot_defect_site mp)
  /\ zero_or_nan (lattice_energy mp)
  /\ exists alignment,
       self !! "_alignment" = Some (VFloat alignment)
       /\ zero_or_nan alignment.
Proof.
  intros Hq Hmp Hself. unfold model_potential in Hmp. rewrite Hq in Hmp.
  apply bind_Ok in Hmp as (positions & _ & Hmp).
  apply bind_Ok in Hmp as (c & Hc & Hmp).
  apply bind_Ok in Hmp as (vs & _ & Hmp).
  apply bind_Ok in Hmp as (s2 & _ & Hmp).
  apply bind_Ok in Hmp as (mps & Hloop & Hmp).
  apply bind_Ok in Hmp as (real & _ & Hmp).
  apply bind_Ok in Hmp as (rec & _ & [= <-]). simpl.
  assert (Hcoeff : zero_or_nan (value c)).
  { unfold num_div in Hc. destruct (is_zero (epsilon_0 lib)); [done|].
    injection Hc as <-. simpl.
    apply zero_or_nan_div_l, zero_or_nan_mul_l, zero_or_nan_mul_l,
      zero_or_nan_0. }
  split; [|split; [|split]].
  - apply atoms_loop_zero in Hloop; [done..|]. by apply Forall_replicate.
  - by apply zero_or_nan_mul_r.
  - apply zero_or_nan_div_l, zero_or_nan_mul_r, zero_or_nan_0.
  - unfold alignment_of in Hself.
    apply bind_Ok in Hself as (pot_diff & _ & [= <-]).
    eexists. split; [reflexivity|]. rewrite Hq.
    apply zero_or_nan_mul_r, zero_or_nan_0.
Qed.

Lemma zero_charge_gives_zero_or_nan_witness :
  let mp := {| model_pot := <[0%nat := Some 0%float]> (replicate 81 None);
               model_pot_defect_site := (-0)%float;
               lattice_energy := (-0)%float |} in
  let self := Correction_init (VMethod extended_fnv) (VEwald ewald_4A)
                (VFloat 0.125) (VFloat (-0)) VNone in
  charge (far_atom_calc 0) = 0
  /\ model_potential FloatLib.lib (far_atom_calc 0) ewald_4A = Ok mp
  /\ alignment_of (far_atom_calc 0) ewald_4A mp = Ok self
  /\ (Forall entry_zero_or_nan (model_pot mp)
      /\ zero_or_nan (model_pot_defect_site mp)
      /\ zero_or_nan (lattice_energy mp)
      /\ exists alignment,
           self !! "_alignment" = Some (VFloat alignment)
           /\ zero_or_nan alignment).
Proof.
  intros mp self.
  assert (H1 : charge (far_atom_calc 0) = 0) by reflexivity.
  assert (H2 : model_potential FloatLib.lib (far_atom_calc 0) ewald_4A = Ok mp)
    by vm_refl.
  assert (H3 : alignment_of (far_atom_calc 0) ewald_4A mp = Ok self)
    by vm_refl.
  split; [exact H1|]. split; [exact H2|]. split; [exact H3|].
  exact (zero_charge_gives_zero_or_nan FloatLib.lib (far_atom_calc 0)
           ewald_4A mp self H1 H2 H3).
Defined.

(** C9 (as stated) fails: with a zero charge and the one atom inside the
    sphere, the alignment energy is NaN, not 0; and whatever the libraries
    compute, the call returns no alignment energy equal to 0. *)
Lemma zero_charge_counterexample :
  charge (near_atom_calc 0) = 0
  /\ compute_alignment_by_extended_fnv FloatLib.lib (near_atom_calc 0)
       ewald_4A = Ok (nan_correction ewald_4A)
  /\ nan_correction ewald_4A !! "_alignment" = Some (VFloat nan)
  /\ is_zero nan = false
  /\ ~ exists lib self alignment,
         compute_alignment_by_extended_fnv lib (near_atom_calc 0) ewald_4A
         = Ok self
         /\ self !! "_alignment" = Some (VFloat alignment)
         /\ is_zero alignment = true.
Proof.
  split; [done|]. split; [vm_refl|]. split; [vm_refl|]. split; [vm_refl|].
  intros (lib & self & al & Hrun & Hal & Hz).
  unfold compute_alignment_by_extended_fnv in Hrun.
  apply bind_Ok in Hrun as (mp & _ & Hrun).
  rewrite alignment_of_empty_shell in Hrun by (by repeat constructor).
  injection Hrun as <-.
  assert (Hnan : nan_correction ewald_4A !! "_alignment" = Some (VFloat nan))
    by vm_refl.
  rewrite Hnan in Hal. by injection Hal as <-.
Qed.

(** ** More on floats: signs and quotients by zero *)

Section float_signs.

Lemma binary_round_aux_sign prec emax sx mx ex lx :
  match binary_round_aux prec emax sx mx ex lx with
  | S754_zero s | S754_infinity s | S754_finite s _ _ => s = sx
  | S754_nan => True
  end.
Proof.
  unfold binary_round_aux.
  destruct (shr_fexp _ _ _ _ _) as [mrs e].
  destruct (shr_fexp _ _ _ _ _) as [mrs' e'].
  destruct (shr_m mrs'); [done| |done]. by destruct (_ <=? _).
Qed.

Lemma sqrt_not_negative x : sf_not_negative (Prim2SF (PrimFloat.sqrt x)).
Proof.
  rewrite sqrt_spec. unfold SF64sqrt, SFsqrt.
  destruct (Prim2SF x) as [s|[]| |[] m e]; try done.
  destruct (SFsqrt_core_binary _ _ _ _) as [[mz ez] lz].
  pose proof (binary_round_aux_sign prec emax false mz ez lz) as H.
  by destruct (binary_round_aux _ _ _ _ _ _) as [s|s| |s ? ?]; subst.
Qed.

(** Nothing that is not negative is below a cutoff that is not positive. *)
Lemma not_negative_not_below x m :
  sf_not_negative (Prim2SF x) -> (0 <? m)%float = false ->
  (x <? m)%float = false.
Proof.
  rewrite !ltb_spec. change (Prim2SF 0) with (S754_zero false).
  unfold SFltb.
  by destruct (Prim2SF x) as [?|[]| |[] ? ?], (Prim2SF m) as [?|[]| |[] ? ?].
Qed.

Lemma norm_not_below v m : (0 <? m)%float = false -> (norm v <? m)%float = false.
Proof. apply not_negative_not_below, sqrt_not_negative. Qed.

(** A quotient by a zero is an infinity or a NaN, so [int] of it raises. *)
Lemma int_of_div_zero x z :
  is_zero z = true ->
  int_of_float (x / z) = Raise OverflowError
  \/ int_of_float (x / z) = Raise ValueError.
Proof.
  unfold is_zero, int_of_float. rewrite eqb_spec, div_spec.
  change (Prim2SF zero) with (S754_zero false). unfold SFeqb, SF64div, SFdiv.
  destruct (Prim2SF z) as [?|[]| |[] ? ?]; try done. intros _.
  destruct (Prim2SF x); auto.
Qed.

(** A quotient of one by a number above zero is not negative. *)
Lemma inverse_not_negative c :
  (0 <? c)%float = true -> sf_not_negative (Prim2SF (1 / c)).
Proof.
  rewrite ltb_spec, div_spec. change (Prim2SF 0) with (S754_zero false).
  change (Prim2SF 1) with (S754_finite false 4503599627370496 (-52)).
  unfold SFltb, SF64div, SFdiv.
  destruct (Prim2SF c) as [?|[]| |[] m e]; try done. intros _.
  destruct (SFdiv_core_binary _ _ _ _ _ _) as [[mz ez] lz].
  pose proof (binary_round_aux_sign prec emax (xorb false false) mz ez lz) as H.
  by destruct (binary_round_aux _ _ _ _ _ _) as [s|s| |s ? ?]; simpl in H;
    subst.
Qed.

(** A zero divided by anything is a zero or a NaN. *)
Lemma zero_div_zero_or_nan x : zero_or_nan (0 / x).
Proof. apply zero_or_nan_div_l. by left. Qed.

(** A zero or a NaN is not strictly between [1 / c] and [c]. *)
Lemma zero_not_in_band c d :
  zero_or_nan d ->
  ((1 / c <? d)%float && (d <? c)%float) = false.
Proof.
  intros Hd. destruct (d <? c)%float eqn:Hdc; [|by rewrite andb_false_r].
  rewrite andb_true_r.
  assert (Hc : (0 <? c)%float = true).
  { revert Hdc. apply zero_or_nan_spec in Hd. rewrite !ltb_spec.
    change (Prim2SF 0) with (S754_zero false). unfold SFltb.
    by destruct (Prim2SF d) as [?|[]| |[] ? ?], (Prim2SF c) as [?|[]| |[] ? ?]. }
  apply inverse_not_negative in Hc. apply zero_or_nan_spec in Hd.
  rewrite ltb_spec. unfold SFltb.
  by destruct (Prim2SF (1 / c)) as [?|[]| |[] ? ?],
    (Prim2SF d) as [?|[]| |[] ? ?].
Qed.

End float_signs.

(** ** More on the generator *)

Section generator_more.

Lemma generate_Ok_max_int lattice_vectors max_length include_self shift l :
  _generate_neighbor_lattices lattice_vectors max_length include_self shift
  = Ok l ->
  exists m, max_int lattice_vectors max_length = Ok m.
Proof. intros (m & Hm & _)%bind_Ok. by exists m. Qed.

Lemma filter_ext_elem {A} (P Q : A -> Prop) `{forall x, Decision (P x)}
    `{forall x, Decision (Q x)} (l : list A) :
  (forall x, x ∈ l -> P x <-> Q x) -> filter P l = filter Q l.
Proof.
  induction l as [|a l IH]; intros Hl; [done|].
  rewrite !filter_cons, IH by (intros x Hx; apply Hl; by right).
  pose proof (Hl a (list_elem_of_here _ _)).
  destruct (decide (P a)), (decide (Q a)); tauto.
Qed.

Lemma filter_none {A} (P : A -> Prop) `{forall x, Decision (P x)}
    (l : list A) :
  (forall x, ~ P x) -> filter P l = [].
Proof.
  intros HP. induction l as [|a l IH]; [done|].
  by rewrite filter_cons_False.
Qed.

(** Counting a filter of a list without repetition, with one element set
    aside. *)
Lemma length_filter_without {A} `{EqDecision A} (P Q : A -> Prop)
    `{forall x, Decision (P x)} `{forall x, Decision (Q x)} (o : A)
    (l : list A) :
  (forall x, Q x <-> P x /\ x <> o) ->
  NoDup l ->
  (o ∈ l /\ P o -> length (filter P l) = S (length (filter Q l)))
  /\ (~ (o ∈ l /\ P o) -> length (filter P l) = length (filter Q l)).
Proof.
  intros HQ. induction 1 as [|x l Hx Hl IH].
  { split; [|done]. by intros [?%not_elem_of_nil _]. }
  rewrite !filter_cons.
  destruct (decide (P x)) as [HP|HP], (decide (Q x)) as [HQx|HQx];
    try (apply HQ in HQx as [? ?]); simpl.
  - (* x passes both tests: x is not o *)
    split.
    + intros [[?|Hin]%elem_of_cons Ho]; [congruence|].
      f_equal. by apply IH.
    + intros Hn. f_equal. apply IH. intros [Hin Ho]. apply Hn.
      split; [by right|done].
  - (* x passes P only: x is o *)
    assert (x = o) as ->.
    { destruct (HQ x) as [_ HQ']. apply dec_stable. intros Hne. tauto. }
    split.
    + intros _. f_equal. f_equal. apply filter_ext_elem. intros y Hy. rewrite HQ.
      split; [|tauto]. intros HPy. split; [done|]. by intros ->.
    + intros Hn. destruct Hn. split; [by left|done].
  - done.
  - split.
    + intros [[->|Hin]%elem_of_cons Ho]; [done|]. by apply IH.
    + intros Hn. apply IH. intros [Hin Ho]. apply Hn. split; [by right|done].
Qed.

Lemma length_product xs ys zs :
  length (product xs ys zs) = (length xs * (length ys * length zs))%nat.
Proof.
  unfold product.
  assert (Hz : forall (zs : list Z) (x y : Z),
             length (z ← zs; [(x, y, z)]) = length zs).
  { intros zs'. induction zs' as [|z zs' IH]; intros x y; [done|].
    rewrite bind_cons. simpl. by rewrite IH. }
  assert (Hy : forall (ys zs : list Z) (x : Z),
             length (y ← ys; z ← zs; [(x, y, z)])
             = (length ys * length zs)%nat).
  { intros ys'. induction ys' as [|y ys' IH]; intros zs' x; [done|].
    rewrite bind_cons, length_app, IH, Hz. simpl. lia. }
  induction xs as [|x xs IH]; [done|].
  rewrite bind_cons, length_app, Hy. simpl. f_equal. exact IH.
Qed.

Lemma count_search_box m :
  count (search_box m)
  = Z.max 0 (2 * m.1.1 + 1)
    * (Z.max 0 (2 * m.1.2 + 1) * Z.max 0 (2 * m.2 + 1)).
Proof.
  unfold count, search_box, range. rewrite length_product, !length_seqZ.
  rewrite !Nat2Z.inj_mul. f_equal; [|f_equal]; lia.
Qed.

Lemma axis_max_int_zero max_length a :
  is_zero (norm a) = true ->
  axis_max_int max_length a = Raise OverflowError
  \/ axis_max_int max_length a = Raise ValueError.
Proof.
  intros Hz. unfold axis_max_int.
  by destruct (int_of_div_zero (value max_length) (norm a) Hz) as [-> | ->];
    [left|right].
Qed.

Lemma axis_max_int_Raise max_length a e :
  axis_max_int max_length a = Raise e ->
  e = OverflowError \/ e = ValueError.
Proof.
  unfold axis_max_int, int_of_float.
  destruct (Prim2SF _) as [?|?| |? ? ?]; simpl; intros [= <-]; auto.
Qed.

Lemma max_int_zero_row lattice_vectors max_length :
  is_zero (norm (row0 lattice_vectors)) = true
  \/ is_zero (norm (row1 lattice_vectors)) = true
  \/ is_zero (norm (row2 lattice_vectors)) = true ->
  exists e, max_int lattice_vectors max_length = Raise e
            /\ (e = OverflowError \/ e = ValueError).
Proof.
  intros Hz. unfold max_int.
  destruct (axis_max_int max_length (row0 lattice_vectors)) as [m0|e0] eqn:H0;
    [|exists e0; split; [done|by eapply axis_max_int_Raise]].
  destruct (axis_max_int max_length (row1 lattice_vectors)) as [m1|e1] eqn:H1;
    [|exists e1; split; [done|by eapply axis_max_int_Raise]].
  destruct (axis_max_int max_length (row2 lattice_vectors)) as [m2|e2] eqn:H2;
    [|exists e2; split; [done|by eapply axis_max_int_Raise]].
  destruct Hz as [Hz|[Hz|Hz]];
    apply (axis_max_int_zero max_length) in Hz as [Hz|Hz]; congruence.
Qed.

Lemma generate_zero_row lattice_vectors max_length include_self shift :
  is_zero (norm (row0 lattice_vectors)) = true
  \/ is_zero (norm (row1 lattice_vectors)) = true
  \/ is_zero (norm (row2 lattice_vectors)) = true ->
  exists e,
    _generate_neighbor_lattices lattice_vectors max_length include_self shift
    = Raise e
    /\ (e = OverflowError \/ e = ValueError).
Proof.
  intros (e & He & Hcases)%(max_int_zero_row _ max_length).
  exists e. split; [|done]. unfold _generate_neighbor_lattices. by rewrite He.
Qed.

End generator_more.

(** The shift moves the vectors and nothing else: the generator run with
    another shift yields the same unshifted vectors, moved by that shift, in
    the same order; in particular as many. *)
Theorem generator_shift_only_moves lattice_vectors max_length include_self
    shift shift' l :
  _generate_neighbor_lattices lattice_vectors max_length include_self shift
  = Ok l ->
  exists cs : list vec,
    l = (fun c => vadd c shift) <$> cs
    /\ _generate_neighbor_lattices lattice_vectors max_length include_self
         shift'
       = Ok ((fun c => vadd c shift') <$> cs)
    /\ count ((fun c => vadd c shift') <$> cs) = count l.
Proof.
  intros Hl. destruct (generate_Ok_max_int _ _ _ _ _ Hl) as [m Hm].
  rewrite (generate_as_filter _ _ _ _ m Hm) in Hl. injection Hl as <-.
  exists (cart_vector lattice_vectors <$>
          filter (fun n => yielded lattice_vectors max_length include_self n
                           = true) (search_box m)).
  rewrite <- !list_fmap_compose. split; [done|].
  split; [by apply generate_as_filter|].
  unfold count. by rewrite !length_fmap.
Qed.

Lemma generator_shift_only_moves_witness :
  exists l,
    _generate_neighbor_lattices (cubic 1) (PyFloat 1.5) true (V3 10 0 0) = Ok l
    /\ exists cs : list vec,
         l = (fun c => vadd c (V3 10 0 0)) <$> cs
         /\ _generate_neighbor_lattices (cubic 1) (PyFloat 1.5) true
              (V3 0 0.5 0)
            = Ok ((fun c => vadd c (V3 0 0.5 0)) <$> cs)
         /\ count ((fun c => vadd c (V3 0 0.5 0)) <$> cs) = count l.
Proof.
  eexists. split; [by vm_compute|].
  apply (generator_shift_only_moves (cubic 1) (PyFloat 1.5) true (V3 10 0 0)
           (V3 0 0.5 0)).
  vm_refl.
Defined.

(** [include_self] decides on the origin and on nothing else: with it the
    generator yields one vector more than without it when the origin lies in
    the search box and the cutoff is above the norm of the zero vector, and
    as many otherwise. *)
Theorem include_self_counts_the_origin lattice_vectors max_length shift m
    l1 l0 :
  max_int lattice_vectors max_length = Ok m ->
  _generate_neighbor_lattices lattice_vectors max_length true shift = Ok l1 ->
  _generate_neighbor_lattices lattice_vectors max_length false shift = Ok l0 ->
  let origin_yielded :=
    in_box m (0, 0, 0)
    /\ (norm (cart_vector lattice_vectors (0, 0, 0)%Z) <? value max_length)%float
       = true in
  (origin_yielded -> count l1 = count l0 + 1)
  /\ (~ origin_yielded -> count l1 = count l0).
Proof.
  intros Hm H1 H0.
  rewrite (generate_as_filter _ _ _ _ m Hm) in H1.
  rewrite (generate_as_filter _ _ _ _ m Hm) in H0.
  injection H1 as <-. injection H0 as <-.
  unfold count. rewrite !length_fmap.
  destruct (length_filter_without
              (fun n => yielded lattice_vectors max_length true n = true)
              (fun n => yielded lattice_vectors max_length false n = true)
              (0, 0, 0) (search_box m)) as [Hin Hout].
  - intros n. unfold yielded. simpl.
    rewrite andb_true_iff, negb_true_iff, <- not_true_iff_false,
      index_is_origin_spec. tauto.
  - apply NoDup_search_box.
  - simpl. split; intros Ho.
    + destruct Ho as [Hb Ht]. rewrite Hin; [lia|].
      split; [by apply elem_of_search_box|exact Ht].
    + rewrite Hout; [lia|]. intros [Hb Ht]. apply Ho.
      split; [by apply elem_of_search_box|exact Ht].
Qed.

Lemma include_self_counts_the_origin_witness :
  max_int (cubic 1) (PyFloat 1.5) = Ok (2, 2, 2)
  /\ exists l1 l0,
       _generate_neighbor_lattices (cubic 1) (PyFloat 1.5) true zeros3 = Ok l1
       /\ _generate_neighbor_lattices (cubic 1) (PyFloat 1.5) false zeros3
          = Ok l0
       /\ count l1 = 19 /\ count l0 = 18
       /\ let origin_yielded :=
            in_box (2, 2, 2) (0, 0, 0)
            /\ (norm (cart_vector (cubic 1) (0, 0, 0)%Z) <? 1.5)%float = true in
          (origin_yielded -> count l1 = count l0 + 1)
          /\ (~ origin_yielded -> count l1 = count l0).
Proof.
  split; [vm_refl|]. eexists. eexists.
  split; [by vm_compute|]. split; [by vm_compute|].
  split; [by vm_compute|]. split; [by vm_compute|].
  apply (include_self_counts_the_origin (cubic 1) (PyFloat 1.5) zeros3
           (2, 2, 2)); vm_refl.
Defined.

(** The generator yields at most as many vectors as the search box has
    indices, (2 m0 + 1)(2 m1 + 1)(2 m2 + 1) for the three search ranges
    [m0], [m1], [m2] (none along an axis whose range is negative). *)
Theorem generator_count_is_bounded lattice_vectors max_length include_self
    shift m l :
  max_int lattice_vectors max_length = Ok m ->
  _generate_neighbor_lattices lattice_vectors max_length include_self shift
  = Ok l ->
  0 <= count l
       <= Z.max 0 (2 * m.1.1 + 1)
          * (Z.max 0 (2 * m.1.2 + 1) * Z.max 0 (2 * m.2 + 1)).
Proof.
  intros Hm Hl. rewrite (generate_as_filter _ _ _ _ m Hm) in Hl.
  injection Hl as <-. rewrite <- count_search_box. unfold count.
  rewrite length_fmap. split; [lia|]. apply inj_le, length_filter.
Qed.

Lemma generator_count_is_bounded_witness :
  max_int (cubic 1) (PyFloat 1.5) = Ok (2, 2, 2)
  /\ exists l,
       _generate_neighbor_lattices (cubic 1) (PyFloat 1.5) true zeros3 = Ok l
       /\ 0 <= count l <= Z.max 0 (2 * 2 + 1)
                          * (Z.max 0 (2 * 2 + 1) * Z.max 0 (2 * 2 + 1)).
Proof.
  split; [vm_refl|]. eexists. split; [by vm_compute|].
  apply (generator_count_is_bounded (cubic 1) (PyFloat 1.5) true zeros3
           (2, 2, 2)); vm_refl.
Defined.

(** A cutoff that is not above zero (zero, negative, or NaN) leaves nothing
    to yield, with or without [include_self]: no norm is below it. *)
Theorem generator_needs_a_positive_cutoff lattice_vectors max_length
    include_self shift m :
  max_int lattice_vectors max_length = Ok m ->
  (0 <? value max_length)%float = false ->
  _generate_neighbor_lattices lattice_vectors max_length include_self shift
  = Ok [].
Proof.
  intros Hm Hneg. rewrite (generate_as_filter _ _ _ _ m Hm). f_equal.
  rewrite filter_none; [done|]. intros n. unfold yielded.
  rewrite (norm_not_below _ _ Hneg). by rewrite andb_false_r.
Qed.

Lemma generator_needs_a_positive_cutoff_witness :
  max_int (cubic 1) (PyFloat 0) = Ok (1, 1, 1)
  /\ (0 <? value (PyFloat 0))%float = false
  /\ _generate_neighbor_lattices (cubic 1) (PyFloat 0) true zeros3 = Ok [].
Proof.
  split; [vm_refl|]. split; [vm_refl|].
  apply (generator_needs_a_positive_cutoff (cubic 1) (PyFloat 0) true zeros3
           (1, 1, 1)); vm_refl.
Defined.

(** A lattice with a vector of norm zero stops the generator before it
    yields anything: the search range along that axis is [int] of a quotient
    by zero, an infinity or a NaN, so [OverflowError] or [ValueError] is
    raised, whatever the cutoff (numpy only warns at the division). *)
Theorem generator_raises_on_a_zero_vector lattice_vectors max_length
    include_self shift :
  is_zero (norm (row0 lattice_vectors)) = true
  \/ is_zero (norm (row1 lattice_vectors)) = true
  \/ is_zero (norm (row2 lattice_vectors)) = true ->
  _generate_neighbor_lattices lattice_vectors max_length include_self shift
  = Raise OverflowError
  \/ _generate_neighbor_lattices lattice_vectors max_length include_self shift
     = Raise ValueError.
Proof.
  intros (e & -> & [-> | ->])%(generate_zero_row _ max_length include_self
                                 shift); auto.
Qed.

Lemma generator_raises_on_a_zero_vector_witness :
  (is_zero (norm (row0 (M3 (V3 1 0 0) (V3 0 0 0) (V3 0 0 1)))) = true
   \/ is_zero (norm (row1 (M3 (V3 1 0 0) (V3 0 0 0) (V3 0 0 1)))) = true
   \/ is_zero (norm (row2 (M3 (V3 1 0 0) (V3 0 0 0) (V3 0 0 1)))) = true)
  /\ (_generate_neighbor_lattices (M3 (V3 1 0 0) (V3 0 0 0) (V3 0 0 1))
        (PyFloat 1.5) true zeros3 = Raise OverflowError
      \/ _generate_neighbor_lattices (M3 (V3 1 0 0) (V3 0 0 0) (V3 0 0 1))
           (PyFloat 1.5) true zeros3 = Raise ValueError).
Proof.
  assert (H : is_zero (norm (row0 (M3 (V3 1 0 0) (V3 0 0 0) (V3 0 0 1)))) = true
   \/ is_zero (norm (row1 (M3 (V3 1 0 0) (V3 0 0 0) (V3 0 0 1)))) = true
   \/ is_zero (norm (row2 (M3 (V3 1 0 0) (V3 0 0 0) (V3 0 0 1)))) = true).
  { right. left. vm_refl. }
  split; [exact H|].
  exact (generator_raises_on_a_zero_vector (M3 (V3 1 0 0) (V3 0 0 0) (V3 0 0 1))
           (PyFloat 1.5) true zeros3 H).
Defined.

(** ** More on the optimizer *)

Section optimizer_more.
Context (lib : NumLib).

Lemma count_nonneg {A} (l : list A) : 0 <= count l.
Proof. unfold count. lia. Qed.

(** A ratio inside the band has a numerator that is not zero. *)
Lemma in_band_numerator convergence n m d :
  int_truediv n m = Ok d -> in_band convergence d = Ok true -> n <> 0.
Proof.
  unfold int_truediv. destruct (m =? 0); [done|]. intros [= <-].
  unfold in_band, num_div. destruct (is_zero convergence); [done|]. simpl.
  intros [= Hb] ->. rewrite float_of_int_0 in Hb.
  by rewrite (zero_not_in_band convergence _ (zero_div_zero_or_nan _)) in Hb.
Qed.

Lemma int_truediv_denominator n m d : int_truediv n m = Ok d -> m <> 0.
Proof.
  unfold int_truediv. destruct (m =? 0) eqn:Hm; [done|]. intros _.
  by apply Z.eqb_neq.
Qed.


End optimizer_more.

(** What a returned state is made of. *)
Lemma from_optimization_returns lib fuel structure epsilon initial_value
    convergence P st :
  from_optimization lib fuel structure epsilon initial_value convergence P
  = Some (Ok st) ->
  lattice_matrix st = structure
  /\ reciprocal_matrix st = reciprocal_lattice lib structure
  /\ dielectric_tensor st = epsilon
  /\ prod_cutoff_fwhm st = P
  /\ 1 <= num_real_lattice st
  /\ 1 <= num_reciprocal_lattice st
  /\ exists d,
       int_truediv (num_real_lattice st) (num_reciprocal_lattice st) = Ok d
       /\ in_band convergence d = Ok true.
Proof.
  unfold from_optimization.
  destruct (optimization_start _ _ _ _) as [[[crv rd] p]|e'] eqn:Hs; [|done].
  intros (p' & Ht)%loop_Ok.
  apply turn_Return in Ht as (max_r & rs & gs & d & Hr & Hrs & Hgs & Hd & Hb & ->).
  simpl. repeat (split; [done|]).
  pose proof (in_band_numerator _ _ _ _ Hd Hb).
  pose proof (int_truediv_denominator _ _ _ Hd).
  pose proof (count_nonneg rs). pose proof (count_nonneg gs).
  split; [lia|]. split; [lia|]. by exists d.
Qed.

(** A state the optimizer returns keeps what it was given (the lattice,
    the dielectric tensor, the accuracy product) with the reciprocal
    lattice of the structure, and both of its counts are at least one: the
    ratio of an empty real-space count is zero or NaN, outside every band,
    and an empty reciprocal count is a division by zero. *)
Theorem optimizer_result_keeps_inputs lib fuel structure epsilon initial_value
    convergence P st :
  from_optimization lib fuel structure epsilon initial_value convergence P
  = Some (Ok st) ->
  lattice_matrix st = structure
  /\ reciprocal_matrix st = reciprocal_lattice lib structure
  /\ dielectric_tensor st = epsilon
  /\ prod_cutoff_fwhm st = P
  /\ 1 <= num_real_lattice st
  /\ 1 <= num_reciprocal_lattice st.
Proof.
  intros H. apply from_optimization_returns in H. tauto.
Qed.

Lemma optimizer_result_keeps_inputs_witness :
  let st := {| lattice_matrix := cubic 1;
               reciprocal_matrix := reciprocal_lattice FloatLib.lib (cubic 1);
               dielectric_tensor := cubic 1;
               ewald_param := PyFloat 1.77;
               prod_cutoff_fwhm := 5;
               num_real_lattice := 81;
               num_reciprocal_lattice := 80 |} in
  from_optimization FloatLib.lib 1 (cubic 1) (cubic 1) (Some 1.77%float) 1.05 5
  = Some (Ok st)
  /\ lattice_matrix st = cubic 1
  /\ reciprocal_matrix st = reciprocal_lattice FloatLib.lib (cubic 1)
  /\ dielectric_tensor st = cubic 1
  /\ prod_cutoff_fwhm st = 5%float
  /\ 1 <= num_real_lattice st
  /\ 1 <= num_reciprocal_lattice st.
Proof.
  intros st.
  assert (H : from_optimization FloatLib.lib 1 (cubic 1) (cubic 1)
                (Some 1.77%float) 1.05 5 = Some (Ok st)) by vm_refl.
  split; [exact H|].
  exact (optimizer_result_keeps_inputs FloatLib.lib 1 (cubic 1) (cubic 1)
           (Some 1.77%float) 1.05 5 st H).
Defined.



(** ** The dictionaries of the Ewald store *)

Section ewald_dict.
Context (lib : NumLib).

Lemma Ewald_init_given lattice epsilon sigma P n_real n_reciprocal :
  Ewald_init lib lattice epsilon sigma P (Some n_real) (Some n_reciprocal)
  = Ok {| lattice_matrix := lattice;
          reciprocal_matrix := reciprocal_lattice lib lattice;
          dielectric_tensor := epsilon;
          ewald_param := sigma;
          prod_cutoff_fwhm := P;
          num_real_lattice := n_real;
          num_reciprocal_lattice := n_reciprocal |}.
Proof. done. Qed.

Lemma Ewald_init_reciprocal lattice epsilon sigma P n_real n_reciprocal e :
  Ewald_init lib lattice epsilon sigma P n_real n_reciprocal = Ok e ->
  lattice_matrix e = lattice
  /\ reciprocal_matrix e = reciprocal_lattice lib lattice.
Proof.
  unfold Ewald_init. intros (nr & _ & H)%bind_Ok.
  by apply bind_Ok in H as (ng & _ & [= <-]).
Qed.

Lemma Ewald_init_raises lattice epsilon sigma P n_real n_reciprocal :
  raises_within arithmetic_errors
    (Ewald_init lib lattice epsilon sigma P n_real n_reciprocal).
Proof.
  unfold Ewald_init.
  raises_step.
  { destruct n_real; [raises_step|].
    raises_step; [apply neighbor_lattices_raises|raises_step]. }
  raises_step.
  { destruct n_reciprocal; [raises_step|].
    raises_step; [apply neighbor_lattices_raises|raises_step]. }
  raises_step.
Qed.

Lemma Ewald_round_trip e :
  reciprocal_matrix e = reciprocal_lattice lib (lattice_matrix e) ->
  Ewald_from_dict lib (Ewald_as_dict e) = Ok e.
Proof.
  intros Hrec. unfold Ewald_from_dict, Ewald_as_dict. simpl.
  rewrite Ewald_init_given, <- Hrec. by destruct e.
Qed.

End ewald_dict.

(** An Ewald object comes back from its own dictionary exactly when its
    reciprocal matrix is the reciprocal lattice of its lattice matrix: the
    dictionary does not hold the reciprocal matrix, [from_dict] derives it
    again, and with both counts in the dictionary no generator is run, so
    nothing is raised. *)
Theorem ewald_dict_round_trip lib e :
  Ewald_from_dict lib (Ewald_as_dict e) = Ok e
  <-> reciprocal_matrix e = reciprocal_lattice lib (lattice_matrix e).
Proof.
  split; [|apply Ewald_round_trip].
  unfold Ewald_from_dict, Ewald_as_dict. simpl. rewrite Ewald_init_given.
  intros [= H]. by rewrite <- H at 1.
Qed.

(** Every Ewald object the class builds, by the constructor or by the
    optimizer, comes back unchanged from [from_dict] of its [as_dict]. *)
Theorem built_ewald_round_trips lib fuel lattice epsilon sigma initial_value
    convergence P n_real n_reciprocal e :
  Ewald_init lib lattice epsilon sigma P n_real n_reciprocal = Ok e
  \/ from_optimization lib fuel lattice epsilon initial_value convergence P
     = Some (Ok e) ->
  Ewald_from_dict lib (Ewald_as_dict e) = Ok e.
Proof.
  intros [H|H]; apply Ewald_round_trip.
  - apply Ewald_init_reciprocal in H as [-> ->]. done.
  - unfold from_optimization in H.
    destruct (optimization_start _ _ _ _) as [[[crv rd] p]|e'] eqn:Hs; [|done].
    apply loop_Ok in H as (p' & Ht).
    by apply turn_Return in Ht as (? & ? & ? & ? & _ & _ & _ & _ & _ & ->).
Qed.

Lemma built_ewald_round_trips_witness :
  exists e,
    (Ewald_init FloatLib.lib (cubic 1) (cubic 1) (PyFloat 1.77) 5 None None
     = Ok e
     \/ from_optimization FloatLib.lib 1 (cubic 1) (cubic 1) (Some 1.77%float)
          1.05 5 = Some (Ok e))
    /\ Ewald_from_dict FloatLib.lib (Ewald_as_dict e) = Ok e.
Proof.
  eexists.
  assert (H : from_optimization FloatLib.lib 1 (cubic 1) (cubic 1)
                (Some 1.77%float) 1.05 5
              = Some (Ok {| lattice_matrix := cubic 1;
                   reciprocal_matrix := reciprocal_lattice FloatLib.lib (cubic 1);
                   dielectric_tensor := cubic 1;
                   ewald_param := PyFloat 1.77;
                   prod_cutoff_fwhm := 5;
                   num_real_lattice := 81;
                   num_reciprocal_lattice := 80 |})) by vm_refl.
  split; [right; exact H|].
  exact (built_ewald_round_trips FloatLib.lib 1 (cubic 1) (cubic 1)
           (PyFloat 1.77) (Some 1.77%float) 1.05 5 None None _
           (or_intror H)).
Defined.

(** [Ewald.from_dict] raises [KeyError] exactly when one of the six keys is
    missing from the dictionary; the constructor it calls never does. *)
Theorem ewald_from_dict_key_error lib d :
  Ewald_from_dict lib d = Raise KeyError
  <-> item_lattice_matrix d = None
      \/ item_dielectric_tensor d = None
      \/ item_ewald_param d = None
      \/ item_prod_cutoff_fwhm d = None
      \/ item_num_real_lattice d = None
      \/ item_num_reciprocal_lattice d = None.
Proof.
  unfold Ewald_from_dict.
  destruct (item_lattice_matrix d) as [l|]; [|by intuition].
  destruct (item_dielectric_tensor d) as [eps|]; [|by intuition].
  destruct (item_ewald_param d) as [s|]; [|by intuition].
  destruct (item_prod_cutoff_fwhm d) as [P|]; [|by intuition].
  destruct (item_num_real_lattice d) as [nr|]; [|by intuition].
  destruct (item_num_reciprocal_lattice d) as [ng|]; [|by intuition].
  simpl. split; [|by intuition].
  intros H%Ewald_init_raises. revert H. vm_decide.
Qed.

(** ** More on the model potential and the alignment *)

Section alignment_more.
Context (lib : NumLib).

(** The comprehension of the atoms without the defect. *)
Lemma positions_length coords mapping i ps :
  positions_without_defect coords mapping i = Ok ps ->
  length ps = length (filter is_Some mapping).
Proof.
  revert i ps. induction mapping as [|[j|] mapping IH]; intros i ps;
    cbn [positions_without_defect].
  - by intros [= <-].
  - destruct (coords !! i) as [r|]; [|done].
    intros (rs & Hrs & [= <-])%bind_Ok.
    rewrite filter_cons_True by done. simpl. f_equal. by eapply IH.
  - rewrite filter_cons_False by (by intros [? ?]). apply IH.
Qed.

(** The loop over the atoms fills the entries [i], [i + 1], ... of the
    list and keeps its length. *)
Lemma atoms_loop_Ok ewald epsilon vol diff_pot coeff center i positions mp0 mp :
  atoms_loop lib ewald epsilon vol diff_pot coeff center i positions mp0
  = Ok mp ->
  length mp = length mp0
  /\ (positions = [] \/ i + length positions <= length mp0)%nat
  /\ (forall j r, positions !! j = Some r ->
        exists real reciprocal,
          real_part lib ewald (vsub r center) = Ok real
          /\ reciprocal_part lib ewald epsilon vol r = Ok reciprocal
          /\ mp !! (i + j)%nat
             = Some (Some ((real + reciprocal + diff_pot) * coeff)%float))
  /\ (forall j, (j < i \/ i + length positions <= j)%nat ->
        mp !! j = mp0 !! j).
Proof.
  revert i mp0. induction positions as [|r positions IH]; intros i mp0; simpl.
  - intros [= <-]. split; [done|]. split; [by left|]. split; [|done].
    intros j r. by rewrite lookup_nil.
  - intros (real & Hreal & H)%bind_Ok.
    apply bind_Ok in H as (reciprocal & Hrec & H).
    case_decide as Hi; [|done].
    apply IH in H as (Hlen & Hfit & Hset & Hkeep).
    rewrite length_insert in Hlen, Hfit.
    split; [done|]. split; [|split].
    + right. destruct Hfit as [-> | Hfit]; simpl; lia.
    + intros [|j] r' Hr'; simpl in Hr'.
      * injection Hr' as <-. exists real, reciprocal.
        split; [done|]. split; [done|].
        rewrite Nat.add_0_r, Hkeep by lia.
        by apply list_lookup_insert_eq.
      * destruct (Hset j r' Hr') as (real' & reciprocal' & ? & ? & Hj).
        exists real', reciprocal'. split; [done|]. split; [done|].
        by replace (i + S j)%nat with (S i + j)%nat by lia.
    + intros j Hj. rewrite Hkeep by lia.
      apply list_lookup_insert_ne. lia.
Qed.

(** The steps of [model_potential] that precede the defect site. *)
Lemma model_potential_Ok d ewald mp :
  model_potential lib d ewald = Ok mp ->
  exists ps c vs s2,
    positions_without_defect (frac_coords d) (atom_mapping_to_perfect d) 0
    = Ok ps
    /\ num_div (PyFloat (float_of_int (charge d) * elementary_charge lib
                         * 1e10)%float) (PyFloat (epsilon_0 lib)) = Ok c
    /\ generate_neighbor_lattices ewald true zeros3 false = Ok vs
    /\ num_pow lib (ewald_param ewald) 2 = Ok s2
    /\ atoms_loop lib ewald (total_dielectric_tensor d)
         (volume lib (perfect_lattice d))
         (-0.25 / volume lib (perfect_lattice d) / value s2)%float (value c)
         (defect_coords d) 0 ps (replicate (length vs) None)
       = Ok (model_pot mp).
Proof.
  unfold model_potential.
  intros (ps & Hps & H)%bind_Ok.
  apply bind_Ok in H as (c & Hc & H).
  apply bind_Ok in H as (vs & Hvs & H).
  apply bind_Ok in H as (s2 & Hs2 & H).
  apply bind_Ok in H as (mp' & Hloop & H).
  apply bind_Ok in H as (real & Hreal & H).
  apply bind_Ok in H as (reciprocal & Hrec & [= <-]).
  by exists ps, c, vs, s2.
Qed.


(** What [zip] and the test let through. *)
Lemma pot_diff_loop_Ok threshold ds diffs models l :
  pot_diff_loop threshold ds diffs models = Ok l ->
  (forall i dist a m,
     ds !! i = Some dist -> diffs !! i = Some a -> models !! i = Some m ->
     (threshold <? dist)%float = true ->
     exists x y, a = Some x /\ m = Some y /\ (x - y)%float ∈ l)
  /\ (forall z, z ∈ l ->
      exists i dist x y,
        ds !! i = Some dist /\ diffs !! i = Some (Some x)
        /\ models !! i = Some (Some y)
        /\ (threshold <? dist)%float = true /\ z = (x - y)%float).
Proof.
  revert diffs models l.
  induction ds as [|d0 ds IH]; intros [|a0 diffs] [|m0 models] l; simpl;
    try (intros [= <-]; split;
         [intros i ? ? ? H1 H2 H3; by rewrite ?lookup_nil in *
         |by intros z ?%not_elem_of_nil]).
  destruct (threshold <? d0)%float eqn:Hd0.
  - destruct a0 as [x0|], m0 as [y0|]; try done.
    intros (rest & Hrest & [= <-])%bind_Ok.
    apply IH in Hrest as [Hall Hin]. split.
    + intros [|i] dist a m H1 H2 H3 Hd; simpl in *.
      * simplify_eq. exists x0, y0. split; [done|]. split; [done|]. by left.
      * destruct (Hall i dist a m H1 H2 H3 Hd) as (x & y & -> & -> & ?).
        exists x, y. split; [done|]. split; [done|]. by right.
    + intros z [->|Hz]%elem_of_cons.
      * by exists 0%nat, d0, x0, y0.
      * destruct (Hin z Hz) as (i & dist & x & y & ? & ? & ? & ? & ?).
        by exists (S i), dist, x, y.
  - intros Hrest. apply IH in Hrest as [Hall Hin]. split.
    + intros [|i] dist a m H1 H2 H3 Hd; simpl in *.
      * simplify_eq. congruence.
      * by apply (Hall i dist a m).
    + intros z Hz.
      destruct (Hin z Hz) as (i & dist & x & y & ? & ? & ? & ? & ?).
      by exists (S i), dist, x, y.
Qed.

Lemma pot_diff_loop_Raise threshold ds diffs models e :
  pot_diff_loop threshold ds diffs models = Raise e ->
  e = TypeError
  /\ exists i dist a m,
       ds !! i = Some dist /\ diffs !! i = Some a /\ models !! i = Some m
       /\ (threshold <? dist)%float = true /\ (a = None \/ m = None).
Proof.
  revert diffs models.
  induction ds as [|d0 ds IH]; intros [|a0 diffs] [|m0 models]; simpl;
    try done.
  destruct (threshold <? d0)%float eqn:Hd0.
  - destruct a0 as [x0|], m0 as [y0|].
    + destruct (pot_diff_loop threshold ds diffs models) as [rest|e'] eqn:Hrest;
        [done|].
      simpl. intros [= <-].
      destruct (IH _ _ Hrest) as (-> & i & dist & a & m & ? & ? & ? & ? & ?).
      split; [done|]. by exists (S i), dist, a, m.
    + intros [= <-]. split; [done|]. exists 0%nat, d0, (Some x0), None. repeat split; auto.
    + intros [= <-]. split; [done|]. exists 0%nat, d0, None, (Some y0). repeat split; auto.
    + intros [= <-]. split; [done|]. exists 0%nat, d0, None, None. repeat split; auto.
  - intros Hrest.
    destruct (IH _ _ Hrest) as (-> & i & dist & a & m & ? & ? & ? & ? & ?).
    split; [done|]. by exists (S i), dist, a, m.
Qed.

End alignment_more.

(** The model potential is a list with one entry per real-lattice vector
    the generator yields, not per atom: entry [i] is the potential at the
    [i]-th atom of [atomic_position_without_defect], every later entry is
    [None], and there are no more such atoms than vectors (one more would
    be an [IndexError]). *)
Theorem model_pot_has_one_entry_per_lattice_vector lib d ewald mp :
  model_potential lib d ewald = Ok mp ->
  exists ps vs coeff diff_pot,
    positions_without_defect (frac_coords d) (atom_mapping_to_perfect d) 0
    = Ok ps
    /\ generate_neighbor_lattices ewald true zeros3 false = Ok vs
    /\ length (model_pot mp) = length vs
    /\ (length ps <= length vs)%nat
    /\ (forall i r, ps !! i = Some r ->
          exists real reciprocal,
            real_part lib ewald (vsub r (defect_coords d)) = Ok real
            /\ reciprocal_part lib ewald (total_dielectric_tensor d)
                 (volume lib (perfect_lattice d)) r = Ok reciprocal
            /\ model_pot mp !! i
               = Some (Some ((real + reciprocal + diff_pot) * coeff)%float))
    /\ (forall i, (length ps <= i < length vs)%nat ->
          model_pot mp !! i = Some None).
Proof.
  intros (ps & c & vs & s2 & Hps & Hc & Hvs & Hs2 & Hloop)%model_potential_Ok.
  apply atoms_loop_Ok in Hloop as (Hlen & Hfit & Hset & Hkeep).
  rewrite length_replicate in Hlen, Hfit.
  exists ps, vs, (value c),
    (-0.25 / volume lib (perfect_lattice d) / value s2)%float.
  split; [done|]. split; [done|]. split; [done|]. split; [|split].
  - destruct Hfit as [-> | Hfit]; simpl in *; lia.
  - intros i r Hr. apply (Hset i r Hr).
  - intros i Hi. rewrite Hkeep by lia. apply lookup_replicate_2. lia.
Qed.

Lemma model_pot_has_one_entry_per_lattice_vector_witness :
  exists mp,
    model_potential FloatLib.lib (far_atom_calc 1) ewald_4A = Ok mp
    /\ exists ps vs coeff diff_pot,
         positions_without_defect (frac_coords (far_atom_calc 1))
           (atom_mapping_to_perfect (far_atom_calc 1)) 0 = Ok ps
         /\ generate_neighbor_lattices ewald_4A true zeros3 false = Ok vs
         /\ length (model_pot mp) = length vs
         /\ (length ps <= length vs)%nat
         /\ (forall i r, ps !! i = Some r ->
               exists real reciprocal,
                 real_part FloatLib.lib ewald_4A
                   (vsub r (defect_coords (far_atom_calc 1))) = Ok real
                 /\ reciprocal_part FloatLib.lib ewald_4A
                      (total_dielectric_tensor (far_atom_calc 1))
                      (volume FloatLib.lib (perfect_lattice (far_atom_calc 1)))
                      r = Ok reciprocal
                 /\ model_pot mp !! i
                    = Some (Some ((real + reciprocal + diff_pot) * coeff)%float))
         /\ (forall i, (length ps <= i < length vs)%nat ->
               model_pot mp !! i = Some None).
Proof.
  pose (mp := match model_potential FloatLib.lib (far_atom_calc 1) ewald_4A
               with
               | Ok mp => mp
               | Raise _ => {| model_pot := []; model_pot_defect_site := 0;
                               lattice_energy := 0 |}
               end).
  exists mp.
  assert (H : model_potential FloatLib.lib (far_atom_calc 1) ewald_4A = Ok mp)
    by vm_refl.
  split; [exact H|].
  exact (model_pot_has_one_entry_per_lattice_vector FloatLib.lib
           (far_atom_calc 1) ewald_4A mp H).
Defined.



(** An atom beyond the sphere radius without a potential difference (an
    inserted atom, for which [relative_potential] gives [None]) or without
    a model potential (an index at or above the number of atoms without
    the defect) ends the alignment in a [TypeError], once the model
    potential has been computed. *)
Theorem far_atom_without_potential_is_a_type_error lib d ewald mp i :
  model_potential lib d ewald = Ok mp ->
  far_atom (calc_max_sphere_radius (perfect_lattice d))
    (distances_from_defect d) (diff_ep d) (model_pot mp) i ->
  diff_ep d !! i = Some None \/ model_pot mp !! i = Some None ->
  compute_alignment_by_extended_fnv lib d ewald = Raise TypeError.
Proof.
  intros Hmp (dist & Hd & Hfar & [a Ha]%lookup_lt_is_Some
              & [m Hm]%lookup_lt_is_Some) Hnone.
  unfold compute_alignment_by_extended_fnv, alignment_of. rewrite Hmp. simpl.
  destruct (pot_diff_loop _ _ _ _) as [l|e] eqn:Hpd.
  - apply pot_diff_loop_Ok in Hpd as [Hall _].
    destruct (Hall i dist a m Hd Ha Hm Hfar) as (x & y & -> & -> & _).
    destruct Hnone; congruence.
  - by apply pot_diff_loop_Raise in Hpd as [-> _].
Qed.

Lemma far_atom_without_potential_is_a_type_error_witness :
  exists mp,
    model_potential FloatLib.lib interstitial_calc ewald_4A = Ok mp
    /\ far_atom (calc_max_sphere_radius (perfect_lattice interstitial_calc))
         (distances_from_defect interstitial_calc) (diff_ep interstitial_calc)
         (model_pot mp) 1
    /\ (diff_ep interstitial_calc !! 1%nat = Some None
        \/ model_pot mp !! 1%nat = Some None)
    /\ compute_alignment_by_extended_fnv FloatLib.lib interstitial_calc ewald_4A
       = Raise TypeError.
Proof.
  pose (mp := match model_potential FloatLib.lib interstitial_calc ewald_4A
               with
               | Ok mp => mp
               | Raise _ => {| model_pot := []; model_pot_defect_site := 0;
                               lattice_energy := 0 |}
               end).
  exists mp.
  assert (Hmp : model_potential FloatLib.lib interstitial_calc ewald_4A
                = Ok mp) by vm_refl.
  assert (Hfar : far_atom
            (calc_max_sphere_radius (perfect_lattice interstitial_calc))
            (distances_from_defect interstitial_calc)
            (diff_ep interstitial_calc) (model_pot mp) 1).
  { exists 3.4641016151377544%float. split; [reflexivity|].
    split; [vm_refl|]. split; vm_decide. }
  split; [exact Hmp|]. split; [exact Hfar|]. split; [by left|].
  exact (far_atom_without_potential_is_a_type_error FloatLib.lib
           interstitial_calc ewald_4A mp 1%nat Hmp Hfar
           (or_introl eq_refl)).
Defined.

(** ** [compute_correction] *)



(** [compute_correction] raises nothing but the exceptions of the
    arithmetic, [LinAlgError], [IndexError] and [TypeError]; the
    [ValueError] of a method that is not [extended_fnv] comes at once when
    an Ewald object is given, and only after the optimizer has returned
    when none is. *)
Theorem compute_correction_raises lib fuel d ewald method err :
  compute_correction lib fuel d ewald method = Some (Raise err) ->
  err ∈ python_errors
  /\ (method <> VMethod extended_fnv ->
      match ewald with
      | Some _ => err = ValueError
      | None =>
          from_optimization lib fuel (perfect_lattice d)
            (total_dielectric_tensor d) None 1.05 25 = Some (Raise err)
          \/ err = ValueError
      end).
Proof.
  unfold compute_correction. intros H.
  assert (Hcorrect : forall e,
            match method with
            | VMethod extended_fnv => compute_alignment_by_extended_fnv lib d e
            | _ => Raise ValueError
            end = Raise err ->
            err ∈ python_errors
            /\ (method <> VMethod extended_fnv -> err = ValueError)).
  { intros e He. destruct method as [| | | |[]| |];
      try (injection He as <-; split; [vm_decide|done]).
    split; [by eapply compute_alignment_raises|done]. }
  destruct ewald as [given|].
  - injection H as H. by apply Hcorrect in H.
  - destruct (from_optimization _ _ _ _ _ _ _) as [[e|e']|] eqn:Hopt;
      [| |done].
    + injection H as H. apply Hcorrect in H as [? ?]. split; [done|]. auto.
    + injection H as ->. split; [|by left].
      apply raises_within_python with (r := Raise err : result Ewald); [|done].
      intros ? [= <-]. by eapply from_optimization_raises.
Qed.

Lemma compute_correction_raises_witness :
  compute_correction FloatLib.lib 0 (far_atom_calc 1) (Some ewald_4A) VNone
  = Some (Raise ValueError)
  /\ ValueError ∈ python_errors
  /\ (VNone <> VMethod extended_fnv -> ValueError = ValueError).
Proof.
  split; [vm_refl|].
  apply (compute_correction_raises FloatLib.lib 0 (far_atom_calc 1)
           (Some ewald_4A) VNone ValueError).
  vm_refl.
Defined.

(** ** The supercell results *)

Section supercell.

Lemma relative_potential_Ok ep_defect ep_perfect mapping k l :
  relative_potential ep_defect ep_perfect mapping k = Ok l ->
  length l = length mapping
  /\ forall i,
       (mapping !! i = Some None -> l !! i = Some None)
       /\ (forall p, mapping !! i = Some (Some p) ->
           exists a b,
             ep_defect !! (k + i)%nat = Some a /\ ep_perfect !! p = Some b
             /\ l !! i = Some (Some (a - b)%float)).
Proof.
  revert k l. induction mapping as [|[p|] mapping IH]; intros k l;
    cbn [relative_potential].
  - intros [= <-]. split; [done|]. intros i. by rewrite lookup_nil.
  - destruct (ep_defect !! k) as [a|] eqn:Ha; [|done].
    destruct (ep_perfect !! p) as [b|] eqn:Hb; [|done].
    intros (rest & Hrest & [= <-])%bind_Ok.
    apply IH in Hrest as [Hlen Hi]. split; [simpl; by f_equal|].
    intros [|i]; simpl.
    + split; [done|]. intros p' [= <-]. exists a, b.
      by rewrite Nat.add_0_r.
    + replace (k + S i)%nat with (S k + i)%nat by lia. apply Hi.
  - intros (rest & Hrest & [= <-])%bind_Ok.
    apply IH in Hrest as [Hlen Hi]. split; [simpl; by f_equal|].
    intros [|i]; simpl.
    + split; [done|]. by intros p' [=].
    + replace (k + S i)%nat with (S k + i)%nat by lia. apply Hi.
Qed.


(** Python's [min] and [max] return an element that nothing in the
    sequence is strictly below (above). *)
Lemma ltb_irrefl x : (x <? x)%float = false.
Proof.
  rewrite ltb_spec. unfold SFltb.
  destruct (Prim2SF x) as [s|[]| |s m e]; try done.
  by rewrite SFcompare_refl_finite.
Qed.

Lemma ltb_asym x y : (x <? y)%float = true -> (y <? x)%float = false.
Proof.
  intros Hxy. destruct (y <? x)%float eqn:Hyx; [|done].
  pose proof (ltb_irrefl x) as Hx. by rewrite (ltb_trans _ _ _ Hxy Hyx) in Hx.
Qed.

Lemma py_min_below x xs :
  py_min x xs = x \/ (py_min x xs <? x)%float = true.
Proof.
  unfold py_min. revert x. induction xs as [|y xs IH]; intros x; simpl;
    [by left|].
  destruct (y <? x)%float eqn:Hy; [|apply IH].
  destruct (IH y) as [-> | Hlt]; [by right|].
  right. by eapply ltb_trans.
Qed.

Lemma py_min_elem x xs : py_min x xs ∈ x :: xs.
Proof.
  unfold py_min. revert x. induction xs as [|y xs IH]; intros x; simpl;
    [by left|].
  destruct (y <? x)%float.
  - right. apply IH.
  - pose proof (IH x) as Hx. apply elem_of_cons in Hx as [Hx | Hx].
    + fold (py_min x xs) in *. rewrite Hx. by left.
    + right. by right.
Qed.

Lemma py_min_least x xs y :
  y ∈ x :: xs -> (y <? py_min x xs)%float = false.
Proof.
  revert x. induction xs as [|z xs IH]; intros x.
  - intros ->%list_elem_of_singleton. apply ltb_irrefl.
  - change (py_min x (z :: xs))
      with (py_min (if (z <? x)%float then z else x) xs).
    intros Hy. destruct (z <? x)%float eqn:Hz.
    + apply elem_of_cons in Hy as [-> | Hy]; [|by apply IH].
      (* the first element, which [z] replaced *)
      destruct (py_min_below z xs) as [-> | Hlt]; [by apply ltb_asym|].
      apply ltb_asym. by eapply ltb_trans.
    + apply elem_of_cons in Hy as [-> | [-> | Hy]%elem_of_cons].
      * apply IH. by left.
      * destruct (py_min_below x xs) as [-> | Hlt]; [done|].
        destruct (z <? py_min x xs)%float eqn:Hyx; [|done].
        by rewrite (ltb_trans _ _ _ Hyx Hlt) in Hz.
      * apply IH. by right.
Qed.

Lemma py_max_above x xs :
  py_max x xs = x \/ (x <? py_max x xs)%float = true.
Proof.
  unfold py_max. revert x. induction xs as [|y xs IH]; intros x; simpl;
    [by left|].
  destruct (x <? y)%float eqn:Hy; [|apply IH].
  destruct (IH y) as [-> | Hlt]; [by right|].
  right. by eapply ltb_trans.
Qed.

Lemma py_max_elem x xs : py_max x xs ∈ x :: xs.
Proof.
  unfold py_max. revert x. induction xs as [|y xs IH]; intros x; simpl;
    [by left|].
  destruct (x <? y)%float.
  - right. apply IH.
  - pose proof (IH x) as Hx. apply elem_of_cons in Hx as [Hx | Hx].
    + fold (py_max x xs) in *. rewrite Hx. by left.
    + right. by right.
Qed.

Lemma py_max_greatest x xs y :
  y ∈ x :: xs -> (py_max x xs <? y)%float = false.
Proof.
  revert x. induction xs as [|z xs IH]; intros x.
  - intros ->%list_elem_of_singleton. apply ltb_irrefl.
  - change (py_max x (z :: xs))
      with (py_max (if (x <? z)%float then z else x) xs).
    intros Hy. destruct (x <? z)%float eqn:Hz.
    + apply elem_of_cons in Hy as [-> | Hy]; [|by apply IH].
      destruct (py_max_above z xs) as [-> | Hlt]; [by apply ltb_asym|].
      apply ltb_asym. by eapply ltb_trans.
    + apply elem_of_cons in Hy as [-> | [-> | Hy]%elem_of_cons].
      * apply IH. by left.
      * destruct (py_max_above x xs) as [-> | Hlt]; [done|].
        destruct (py_max x xs <? z)%float eqn:Hyx; [|done].
        by rewrite (ltb_trans _ _ _ Hlt Hyx) in Hz.
      * apply IH. by right.
Qed.

Lemma result_bind_Ok {A B} (a : A) (f : A -> result B) : Ok a ≫= f = f a.
Proof. reflexivity. Qed.

Lemma py_min_of_cons x xs : py_min_of (x :: xs) = Ok (py_min x xs).
Proof. reflexivity. Qed.

Lemma neighbor_images_cons :
  neighbor_images = (-1, -1, -1) :: tail neighbor_images.
Proof. reflexivity. Qed.

Lemma min_distance_Ok frac1 frac2 lattice_vector_matrix :
  exists dist,
    min_distance_under_pbc frac1 frac2 lattice_vector_matrix = Ok dist
    /\ dist ∈ image_distances frac1 frac2 lattice_vector_matrix
    /\ forall other,
         other ∈ image_distances frac1 frac2 lattice_vector_matrix ->
         (other <? dist)%float = false.
Proof.
  unfold min_distance_under_pbc, image_distances.
  rewrite neighbor_images_cons, fmap_cons, py_min_of_cons.
  eexists. split; [reflexivity|].
  split; [apply py_min_elem|apply py_min_least].
Qed.

End supercell.

(** [relative_potential] returns one entry per atom of the mapping:
    [None] for an atom that maps to nothing, and for an atom [i] that maps
    to [p] the potential of atom [i] of the defect cell minus the
    potential of atom [p] of the perfect cell. *)
Theorem relative_potential_follows_the_mapping ep_defect ep_perfect mapping l :
  relative_potential ep_defect ep_perfect mapping 0 = Ok l ->
  length l = length mapping
  /\ forall i,
       (mapping !! i = Some None -> l !! i = Some None)
       /\ (forall p, mapping !! i = Some (Some p) ->
           exists a b,
             ep_defect !! i = Some a /\ ep_perfect !! p = Some b
             /\ l !! i = Some (Some (a - b)%float)).
Proof. apply relative_potential_Ok. Qed.

Lemma relative_potential_follows_the_mapping_witness :
  relative_potential [0.5; 0.25; 2]%float [1; 1.5; 3; 4]%float
    [Some 0%nat; None; Some 3%nat] 0
  = Ok [Some (-0.5)%float; None; Some (-2)%float]
  /\ length [Some (-0.5)%float; None; Some (-2)%float]
     = length [Some 0%nat; None; Some 3%nat]
  /\ forall i,
       ([Some 0%nat; None; Some 3%nat] !! i = Some None ->
        [Some (-0.5)%float; None; Some (-2)%float] !! i = Some None)
       /\ (forall p, [Some 0%nat; None; Some 3%nat] !! i = Some (Some p) ->
           exists a b,
             [0.5; 0.25; 2]%float !! i = Some a
             /\ [1; 1.5; 3; 4]%float !! p = Some b
             /\ [Some (-0.5)%float; None; Some (-2)%float] !! i
                = Some (Some (a - b)%float)).
Proof.
  split; [vm_refl|].
  apply (relative_potential_follows_the_mapping [0.5; 0.25; 2]%float
           [1; 1.5; 3; 4]%float [Some 0%nat; None; Some 3%nat]).
  vm_refl.
Defined.


(** [distance_list] returns one distance per atom, and the distance of an
    atom is the norm of one of the 27 images of the separation vector (the
    cell and its neighbours) with no image strictly shorter; [min] is
    never called on an empty list. *)
Theorem distance_list_takes_the_nearest_image lattice_vector_matrix
    frac_coords coords :
  exists ds,
    distance_list lattice_vector_matrix frac_coords coords = Ok ds
    /\ length ds = length frac_coords
    /\ forall i host, frac_coords !! i = Some host ->
         exists dist,
           ds !! i = Some dist
           /\ min_distance_under_pbc host coords lattice_vector_matrix
              = Ok dist
           /\ dist ∈ image_distances host coords lattice_vector_matrix
           /\ forall other,
                other ∈ image_distances host coords lattice_vector_matrix ->
                (other <? dist)%float = false.
Proof.
  unfold distance_list.
  induction frac_coords as [|host hosts (ds & Hds & Hlen & Hall)].
  - exists []. split; [done|]. split; [done|]. intros i host.
    by rewrite lookup_nil.
  - destruct (min_distance_Ok host coords lattice_vector_matrix)
      as (dist & Hdist & Hin & Hleast).
    exists (dist :: ds). cbn [mapM].
    rewrite Hdist, result_bind_Ok, Hds, result_bind_Ok.
    split; [reflexivity|]. split; [simpl; by f_equal|].
    intros [|i] host' Hhost; simpl in *.
    + injection Hhost as <-. by exists dist.
    + by apply Hall.
Qed.

(** The distance threshold of the alignment is half of one of the three
    inter-plane distances of the cell, and none of the three is strictly
    greater than that one: half the largest, not half the smallest. *)
Theorem sphere_radius_is_half_the_largest_distance lattice_vectors :
  exists dist,
    dist ∈ calc_distance_two_planes lattice_vectors
    /\ calc_max_sphere_radius lattice_vectors = (dist / 2)%float
    /\ forall other,
         other ∈ calc_distance_two_planes lattice_vectors ->
         (dist <? other)%float = false.
Proof.
  unfold calc_max_sphere_radius, calc_distance_two_planes.
  eexists. split; [apply py_max_elem|]. split; [done|].
  apply py_max_greatest.
Qed.

(** ** The atom mapping of a defect entry *)

Section atom_mapping.

Lemma filter_all {A} (P : A -> Prop) `{forall x, Decision (P x)} (l : list A) :
  (forall x, x ∈ l -> P x) -> filter P l = l.
Proof.
  induction l as [|a l IH]; intros Hl; [done|].
  rewrite filter_cons_True by (apply Hl; by left).
  f_equal. apply IH. intros x Hx. apply Hl. by right.
Qed.

Lemma list_pop_middle {A} (l1 l2 : list A) (x : A) :
  list_pop (l1 ++ x :: l2) (Z.of_nat (length l1)) = Ok (l1 ++ l2).
Proof.
  unfold list_pop. rewrite length_app. simpl.
  destruct (Z.ltb_spec (Z.of_nat (length l1)) 0); [lia|].
  rewrite (proj2 (Z.ltb_ge _ 0)) by lia. cbn [orb].
  rewrite (proj2 (Z.leb_gt _ _)) by lia.
  by rewrite Nat2Z.id, delete_middle.
Qed.

Lemma list_pop_length {A} (l l' : list A) (o : Z) :
  list_pop l o = Ok l' -> length l = S (length l').
Proof.
  unfold list_pop.
  destruct (_ || _) eqn:Hout; [done|]. intros [= <-].
  apply orb_false_iff in Hout as [Hneg%Z.ltb_ge Hle%Z.leb_gt].
  assert (length l <> 0)%nat by lia.
  rewrite length_delete; [lia|].
  apply lookup_lt_is_Some. lia.
Qed.

Lemma list_pop_Forall {A} (P : A -> Prop) (l l' : list A) (o : Z) :
  list_pop l o = Ok l' -> Forall P l -> Forall P l'.
Proof.
  unfold list_pop. destruct (_ || _); [done|]. intros [= <-].
  apply Forall_delete.
Qed.

Lemma pop_each_length {A} (l l' : list A) (os : list Z) :
  pop_each l os = Ok l' -> length l = (length l' + length os)%nat.
Proof.
  revert l. induction os as [|o os IH]; intros l; simpl.
  - intros [= <-]. lia.
  - intros (l1 & H1 & H2)%bind_Ok.
    apply list_pop_length in H1. apply IH in H2. lia.
Qed.

Lemma pop_each_Forall {A} (P : A -> Prop) (l l' : list A) (os : list Z) :
  pop_each l os = Ok l' -> Forall P l -> Forall P l'.
Proof.
  revert l. induction os as [|o os IH]; intros l; simpl.
  - by intros [= <-].
  - intros (l1 & H1 & H2)%bind_Ok Hl.
    eapply IH; [done|]. by eapply list_pop_Forall.
Qed.

(** The perfect atoms left when those of [gone] are taken out. *)
#[local] Abbreviation left_of N gone :=
  (filter (fun j : nat => Z.of_nat j ∉ (gone : list Z)) (seq 0 N)).

Lemma left_of_split k r gone :
  (forall d, d ∈ gone -> Z.of_nat k < d) ->
  left_of (k + S r) gone
  = seq 0 k ++ k :: filter (fun j : nat => Z.of_nat j ∉ gone) (seq (S k) r).
Proof.
  intros Hgone. rewrite seq_app, filter_app. simpl.
  rewrite filter_cons_True by (intros Hin%Hgone; lia).
  f_equal. apply filter_all.
  intros j [_ Hj]%elem_of_seq Hin%Hgone. lia.
Qed.

Lemma left_of_split_gone k r gone :
  (forall d, d ∈ gone -> Z.of_nat k < d) ->
  left_of (k + S r) (Z.of_nat k :: gone)
  = seq 0 k ++ filter (fun j : nat => Z.of_nat j ∉ gone) (seq (S k) r).
Proof.
  intros Hgone. rewrite seq_app, filter_app. simpl.
  rewrite filter_cons_False by (intros Hn; apply Hn; by left).
  f_equal.
  - apply filter_all.
    intros j [_ Hj]%elem_of_seq [Heq|Hin%Hgone]%elem_of_cons; lia.
  - apply filter_ext_elem. intros j [Hj _]%elem_of_seq.
    rewrite elem_of_cons. split; [tauto|]. intros Hn [Heq|Hin]; [lia|done].
Qed.

(** Popping indices in decreasing order takes out the atoms of those
    indices: no pop moves an entry that is popped later. *)
Lemma pop_each_decreasing N ks gone :
  StronglySorted (flip Z.le) ks -> NoDup ks ->
  (forall k, k ∈ ks ->
     0 <= k < Z.of_nat N /\ forall d, d ∈ gone -> k < d) ->
  pop_each (Some <$> left_of N gone) ks
  = Ok (Some <$> left_of N (ks ++ gone)).
Proof.
  revert gone. induction ks as [|k ks IH]; intros gone Hsorted Hnodup Hks;
    [done|].
  apply StronglySorted_inv in Hsorted as [Hsorted Hle].
  apply NoDup_cons in Hnodup as [Hk Hnodup].
  destruct (Hks k) as [Hrange Hbelow]; [by left|].
  cbn [pop_each].
  assert (Hpop : list_pop (Some <$> left_of N gone) k
                 = Ok (Some <$> left_of N (k :: gone))).
  { set (kn := Z.to_nat k). set (r := (N - S kn)%nat).
    assert (HN : N = (kn + S r)%nat) by lia.
    assert (Hkn : k = Z.of_nat kn) by lia.
    assert (Hbelow' : forall d, d ∈ gone -> Z.of_nat kn < d).
    { intros d Hd. rewrite <- Hkn. by apply Hbelow. }
    rewrite HN, Hkn.
    rewrite (left_of_split _ _ _ Hbelow'), (left_of_split_gone _ _ _ Hbelow').
    rewrite !fmap_app, fmap_cons.
    pose proof (list_pop_middle (Some <$> seq 0 kn)
                  (Some <$> filter (fun j : nat => Z.of_nat j ∉ gone)
                                   (seq (S kn) r)) (Some kn)) as Hmid.
    by rewrite length_fmap, length_seq in Hmid. }
  rewrite Hpop, result_bind_Ok, (IH (k :: gone)); [|done..|].
  - assert (Heq : left_of N (ks ++ k :: gone) = left_of N ((k :: ks) ++ gone)).
    { apply filter_ext_elem. intros j _.
      rewrite !elem_of_app, !elem_of_cons. tauto. }
    by rewrite Heq.
  - intros k' Hk'. split; [apply Hks; by right|].
    intros d [->|Hd]%elem_of_cons.
    + rewrite Forall_forall in Hle. specialize (Hle k' Hk'). unfold flip in Hle.
      assert (k' <> k) by (by intros ->). lia.
    + apply (Hks k'); [by right|done].
Qed.

#[local] Instance flip_le_total : Total (flip Z.le).
Proof. intros x y. unfold flip. lia. Qed.

Lemma sorted_reverse_sorted l : StronglySorted (flip Z.le) (sorted_reverse l).
Proof. apply StronglySorted_merge_sort; apply _. Qed.

Lemma sorted_reverse_Permutation l : sorted_reverse l ≡ₚ l.
Proof. apply merge_sort_Permutation. Qed.

Lemma elem_of_keys {A} (d : gmap Z A) k : k ∈ keys d <-> is_Some (d !! k).
Proof.
  unfold keys. rewrite list_elem_of_fmap. split.
  - intros ([k' v] & -> & Hkv%elem_of_map_to_list). by exists v.
  - intros [v Hv]. exists (k, v). split; [done|].
    by apply elem_of_map_to_list.
Qed.

Lemma NoDup_keys {A} (d : gmap Z A) : NoDup (keys d).
Proof. apply NoDup_fst_map_to_list. Qed.

Lemma list_insert_at_length {A} (l : list A) i x :
  length (list_insert_at l i x) = S (length l).
Proof.
  unfold list_insert_at. cbv zeta.
  match goal with |- context [take ?n l] => generalize n; intros m end.
  rewrite length_app. simpl. rewrite length_take, length_drop. lia.
Qed.

Lemma list_insert_at_None (l : list (option nat)) i :
  length (filter (fun e => e = None) (list_insert_at l i None))
  = S (length (filter (fun e => e = None) l)).
Proof.
  unfold list_insert_at. cbv zeta.
  match goal with |- context [take ?n l] => generalize n; intros m end.
  rewrite filter_app, filter_cons_True by done.
  rewrite length_app. simpl.
  rewrite <- (take_drop m l) at 3.
  rewrite filter_app, length_app. lia.
Qed.

Lemma insert_each_length (l : list (option nat)) (ins : list Z) :
  length (fold_left (fun mapping i => list_insert_at mapping i None) ins l)
  = (length l + length ins)%nat
  /\ length (filter (fun e => e = None)
       (fold_left (fun mapping i => list_insert_at mapping i None) ins l))
     = (length (filter (fun e => e = None) l) + length ins)%nat.
Proof.
  revert l. induction ins as [|i ins IH]; intros l; simpl; [lia|].
  destruct (IH (list_insert_at l i None)) as [-> ->].
  rewrite list_insert_at_length, list_insert_at_None. lia.
Qed.

Lemma filter_Forall_not {A} (P : A -> Prop) `{forall x, Decision (P x)}
    (l : list A) :
  Forall (fun x => ~ P x) l -> filter P l = [].
Proof.
  induction 1 as [|x l Hx _ IH]; [done|]. by rewrite filter_cons_False.
Qed.

Lemma keys_empty {A} : keys (∅ : gmap Z A) = [].
Proof. unfold keys. by rewrite map_to_list_empty. Qed.

Lemma sorted_reverse_nil : sorted_reverse [] = [].
Proof. reflexivity. Qed.

Lemma sorted_reverse_singleton x : sorted_reverse [x] = [x].
Proof. reflexivity. Qed.

Lemma sorted_reverse_pair x y : x < y -> sorted_reverse [x; y] = [y; x].
Proof.
  intros Hxy. unfold sorted_reverse, merge_sort. simpl.
  unfold flip. repeat case_decide; (done || lia).
Qed.

(** [insert] into a run of consecutive atoms. *)
Lemma list_insert_at_seq (i n : nat) :
  (i <= n)%nat ->
  list_insert_at (Some <$> seq 0 n) (Z.of_nat i) None
  = (Some <$> seq 0 i) ++ None :: (Some <$> seq i (n - i)).
Proof.
  intros Hi. unfold list_insert_at. cbv zeta.
  rewrite length_fmap, length_seq.
  destruct (Z.ltb_spec (Z.of_nat i) 0); [lia|].
  rewrite Z.min_l, Nat2Z.id by lia.
  rewrite <- fmap_take, <- fmap_drop, take_seq, drop_seq.
  by rewrite Nat.min_l by lia.
Qed.

Lemma list_insert_at_app {A} (l1 l2 : list A) (i : nat) (x : A) :
  (i <= length l1)%nat ->
  list_insert_at (l1 ++ l2) (Z.of_nat i) x
  = take i l1 ++ x :: drop i l1 ++ l2.
Proof.
  intros Hi. unfold list_insert_at. cbv zeta. rewrite length_app.
  destruct (Z.ltb_spec (Z.of_nat i) 0); [lia|].
  rewrite Z.min_l, Nat2Z.id by lia.
  by rewrite take_app_le, drop_app_le.
Qed.

End atom_mapping.

(** The docstring's case, for any set of vacancies: with no inserted atom
    and every removed index inside the perfect cell, the mapping lists the
    atoms of the perfect cell that were not removed, in increasing order;
    popping the larger indices first keeps the smaller ones in place. *)
Theorem vacancy_mapping_skips_the_removed_atoms n removed_atoms :
  (forall k, is_Some (removed_atoms !! k) ->
     0 <= k < Z.of_nat n + count (keys removed_atoms)) ->
  DefectEntry.atom_mapping_to_perfect n removed_atoms []
  = Ok (Some <$> unremoved (n + length (keys removed_atoms)) removed_atoms).
Proof.
  intros Hrange. unfold DefectEntry.atom_mapping_to_perfect.
  rewrite sorted_reverse_nil. cbn [fold_left].
  replace (Z.to_nat (Z.of_nat n - count (@nil Z) + count (keys removed_atoms)))
    with (n + length (keys removed_atoms))%nat by (unfold count; simpl; lia).
  set (N := (n + length (keys removed_atoms))%nat).
  assert (Hall : seq 0 N = filter (fun j : nat => Z.of_nat j ∉ @nil Z) (seq 0 N)).
  { symmetry. apply filter_all. intros j _. apply not_elem_of_nil. }
  rewrite Hall at 1.
  rewrite pop_each_decreasing.
  - simpl. do 2 f_equal. unfold unremoved. apply filter_ext_elem.
    intros j _. rewrite app_nil_r, sorted_reverse_Permutation, elem_of_keys.
    by rewrite eq_None_not_Some.
  - apply sorted_reverse_sorted.
  - rewrite sorted_reverse_Permutation. apply NoDup_keys.
  - intros k Hk. rewrite sorted_reverse_Permutation, elem_of_keys in Hk.
    split; [|by intros d ?%not_elem_of_nil].
    specialize (Hrange k Hk). unfold count, N in *. lia.
Qed.

Lemma vacancy_mapping_skips_the_removed_atoms_witness :
  (forall k, is_Some (({[32 := V3 0 0 0.5]} : gmap Z vec) !! k) ->
     0 <= k < Z.of_nat 63 + count (keys ({[32 := V3 0 0 0.5]} : gmap Z vec)))
  /\ DefectEntry.atom_mapping_to_perfect 63 {[32 := V3 0 0 0.5]} []
     = Ok (Some <$> unremoved (63 + length (keys ({[32 := V3 0 0 0.5]}
                                               : gmap Z vec)))
                      {[32 := V3 0 0 0.5]})
  /\ unremoved (63 + length (keys ({[32 := V3 0 0 0.5]} : gmap Z vec)))
       {[32 := V3 0 0 0.5]}
     = seq 0 32 ++ seq 33 31.
Proof.
  assert (H : forall k, is_Some (({[32 := V3 0 0 0.5]} : gmap Z vec) !! k) ->
     0 <= k < Z.of_nat 63 + count (keys ({[32 := V3 0 0 0.5]} : gmap Z vec))).
  { intros k [v [<- _]%lookup_singleton_Some].
    replace (count (keys ({[32 := V3 0 0 0.5]} : gmap Z vec))) with 1
      by vm_refl.
    lia. }
  split; [exact H|].
  split; [exact (vacancy_mapping_skips_the_removed_atoms 63
                   {[32 := V3 0 0 0.5]} H)|].
  vm_refl.
Defined.

(** The mapping has one entry per atom of the initial structure, [None]
    for as many of them as there are inserted atoms, whenever the pops
    succeed and the number of atoms of the perfect cell is not negative. *)
Theorem atom_mapping_has_one_entry_per_atom n removed_atoms inserted_atoms
    mapping :
  count inserted_atoms <= Z.of_nat n + count (keys removed_atoms) ->
  DefectEntry.atom_mapping_to_perfect n removed_atoms inserted_atoms
  = Ok mapping ->
  length mapping = n
  /\ length (filter (fun e => e = None) mapping) = length inserted_atoms.
Proof.
  intros Htotal. unfold DefectEntry.atom_mapping_to_perfect.
  intros (popped & Hpop & [= <-])%bind_Ok.
  pose proof (pop_each_length _ _ _ Hpop) as Hlen.
  rewrite length_fmap, length_seq, (sorted_reverse_Permutation (keys _))
    in Hlen.
  assert (Hsome : Forall (fun e : option nat => ~ e = None) popped).
  { eapply pop_each_Forall; [exact Hpop|].
    apply Forall_fmap, Forall_forall. by intros j _. }
  destruct (insert_each_length popped (sorted_reverse inserted_atoms))
    as [-> ->].
  rewrite (filter_Forall_not _ _ Hsome), sorted_reverse_Permutation.
  unfold count in *. simpl. lia.
Qed.

Lemma atom_mapping_has_one_entry_per_atom_witness :
  count [1; 3] <= Z.of_nat 5 + count (keys ({[2 := V3 0 0 0.5]} : gmap Z vec))
  /\ DefectEntry.atom_mapping_to_perfect 5 {[2 := V3 0 0 0.5]} [1; 3]
     = Ok [Some 0; None; Some 1; Some 3; None]%nat
  /\ length [Some 0; None; Some 1; Some 3; None]%nat = 5%nat
  /\ length (filter (fun e => e = None) [Some 0; None; Some 1; Some 3; None]%nat)
     = length [1; 3].
Proof.
  assert (H1 : count [1; 3]
               <= Z.of_nat 5 + count (keys ({[2 := V3 0 0 0.5]} : gmap Z vec)))
    by vm_decide.
  assert (H2 : DefectEntry.atom_mapping_to_perfect 5 {[2 := V3 0 0 0.5]} [1; 3]
               = Ok [Some 0; None; Some 1; Some 3; None]%nat) by vm_refl.
  split; [exact H1|]. split; [exact H2|].
  exact (atom_mapping_has_one_entry_per_atom 5 {[2 := V3 0 0 0.5]} [1; 3]
           _ H1 H2).
Defined.

(** One inserted atom, at the index [i] of the defect cell: the mapping is
    [None] at [i], the atoms before [i] map to themselves and the atoms
    after it to the index one below their own. *)
Theorem interstitial_mapping_is_none_at_the_inserted_atom n i :
  (i < n)%nat ->
  DefectEntry.atom_mapping_to_perfect n ∅ [Z.of_nat i]
  = Ok ((Some <$> seq 0 i) ++ None :: (Some <$> seq i (n - 1 - i))).
Proof.
  intros Hi. unfold DefectEntry.atom_mapping_to_perfect.
  replace (keys (∅ : gmap Z vec)) with (@nil Z)
    by (symmetry; apply keys_empty).
  change (sorted_reverse []) with (@nil Z).
  rewrite sorted_reverse_singleton.
  cbn [pop_each fold_left]. rewrite result_bind_Ok. f_equal.
  replace (Z.to_nat (Z.of_nat n - count [Z.of_nat i] + count (@nil Z)))
    with (n - 1)%nat by (unfold count; simpl; lia).
  apply list_insert_at_seq. lia.
Qed.

Lemma interstitial_mapping_is_none_at_the_inserted_atom_witness :
  (2 < 5)%nat
  /\ DefectEntry.atom_mapping_to_perfect 5 ∅ [Z.of_nat 2]
     = Ok ((Some <$> seq 0 2) ++ None :: (Some <$> seq 2 (5 - 1 - 2))).
Proof.
  assert (H : (2 < 5)%nat) by lia.
  split; [exact H|].
  exact (interstitial_mapping_is_none_at_the_inserted_atom 5 2 H).
Defined.

(** Two inserted atoms, at the indices [i < j] of the defect cell with at
    least one atom after [j]: inserting at the larger index first and then
    at the smaller one moves the first [None] up, so the mapping is [None]
    at [i] and at [j + 1], and the inserted atom [j] is mapped to the
    perfect atom [j - 1]. *)
Theorem two_interstitials_shift_the_second_none n i j :
  (i < j)%nat -> (j + 2 <= n)%nat ->
  DefectEntry.atom_mapping_to_perfect n ∅ [Z.of_nat i; Z.of_nat j]
  = Ok ((Some <$> seq 0 i) ++ None :: (Some <$> seq i (j - i))
        ++ None :: (Some <$> seq j (n - 2 - j))).
Proof.
  intros Hij Hj. unfold DefectEntry.atom_mapping_to_perfect.
  replace (keys (∅ : gmap Z vec)) with (@nil Z)
    by (symmetry; apply keys_empty).
  change (sorted_reverse []) with (@nil Z).
  rewrite sorted_reverse_pair by lia.
  cbn [pop_each fold_left]. rewrite result_bind_Ok. f_equal.
  replace (Z.to_nat (Z.of_nat n - count [Z.of_nat i; Z.of_nat j]
                     + count (@nil Z)))
    with (n - 2)%nat by (unfold count; simpl; lia).
  rewrite list_insert_at_seq by lia.
  rewrite list_insert_at_app by (rewrite length_fmap, length_seq; lia).
  rewrite <- fmap_take, <- fmap_drop, take_seq, drop_seq.
  by rewrite Nat.min_l by lia.
Qed.

Lemma two_interstitials_shift_the_second_none_witness :
  (1 < 3)%nat /\ (3 + 2 <= 6)%nat
  /\ DefectEntry.atom_mapping_to_perfect 6 ∅ [Z.of_nat 1; Z.of_nat 3]
     = Ok ((Some <$> seq 0 1) ++ None :: (Some <$> seq 1 (3 - 1))
           ++ None :: (Some <$> seq 3 (6 - 2 - 3)))
  /\ (Some <$> seq 0 1) ++ None :: (Some <$> seq 1 (3 - 1))
       ++ None :: (Some <$> seq 3 (6 - 2 - 3))
     = [Some 0; None; Some 1; Some 2; None; Some 3]%nat.
Proof.
  assert (H1 : (1 < 3)%nat) by lia.
  assert (H2 : (3 + 2 <= 6)%nat) by lia.
  split; [exact H1|]. split; [exact H2|].
  split; [exact (two_interstitials_shift_the_second_none 6 1 3 H1 H2)|].
  reflexivity.
Defined.
